(** * Marker search synchronisation: cross-references, search documents,
      bulk indexing and query translation.

    Shallow embedding of [src/types/marker.ts] (class [Marker]) and of
    [src/search/marker.ts], with the collaborators they call. *)

From Stdlib Require Import List String ZArith Lia Bool Arith Permutation.
Set Warnings "-register-all".
Import ListNotations.
Open Scope string_scope.
Open Scope list_scope.

(** ** Exceptions and fallible computations *)

(** What a rejected promise carries.  [TypeError] is what the JavaScript
    runtime raises; the other two are the error kinds the specification
    names. *)
Inductive Exn : Type :=
| TypeError (msg : string)
| InvalidSortKey (key : string)
| EntityNotFound (id : string).

Inductive result (A : Type) : Type :=
| Ok (a : A)
| Throw (e : Exn).
Arguments Ok {A} a.
Arguments Throw {A} e.

Definition bind {A B : Type} (m : result A) (k : A -> result B) : result B :=
  match m with
  | Ok a => k a
  | Throw e => Throw e
  end.

Notation "x <- m ;; k" := (bind m (fun x => k))
  (at level 61, m at next level, right associativity).

(** [xs.filter(Boolean)] on an array of nullable objects. *)
Fixpoint filter_Boolean {A : Type} (xs : list (option A)) : list A :=
  match xs with
  | [] => []
  | Some a :: t => a :: filter_Boolean t
  | None :: t => filter_Boolean t
  end.

(** [[...new Set(xs)]]: a JavaScript [Set] keeps the first occurrence of
    every value, in insertion order. *)
Definition Set_add (seen : list string) (x : string) : list string :=
  if in_dec string_dec x seen then seen else seen ++ [x].

Definition Set_of (xs : list string) : list string :=
  fold_left Set_add xs [].

(** ** The entity store *)

Module database.

(** Modelled from the spec: the [database] module ([find], [findOne],
    [insert], [remove]) is not part of the sources at hand.  Section 6
    gives its contract: [find(predicate) -> Entity[]],
    [findOne(predicate) -> Entity|null], [insert(doc)],
    [remove(predicate)].  A collection is the list of its documents. *)
Definition find {A : Type} (coll : list A) (p : A -> bool) : list A :=
    filter p coll.

Definition findOne {A : Type} (coll : list A) (p : A -> bool) : option A :=
    List.find p coll.

Definition insert {A : Type} (coll : list A) (doc : A) : list A :=
    coll ++ [doc].

Definition remove {A : Type} (coll : list A) (p : A -> bool) : list A :=
    filter (fun d => negb (p d)) coll.

End database.

Module CrossReference.

Record t : Type := mk { _id : string; from : string; to : string }.

(** Modelled from the spec: [CrossReference.getBySource] is not part of
    the sources at hand; section 4.1 has [getBySource(from)] return the
    edges whose source is [from], and section 6 has the store persist
    [{_id, from, to}] documents through the entity-store interface. *)
Definition getBySource (crossReferences : list t) (source : string) : list t :=
    database.find crossReferences (fun r => String.eqb (from r) source).

End CrossReference.

Module Label.

Record t : Type := mk { _id : string; name : string; aliases : list string }.

(** Modelled from the spec: [Label.getById] is not part of the sources at
    hand; it is [findOne] on the label collection by [_id], as
    [Marker.getById] is on the marker collection. *)
Definition getById (labels : list t) (id : string) : option t :=
    database.findOne labels (fun l => String.eqb (_id l) id).

(** Modelled from the spec: deleting a label removes its document, as
    [Marker.remove] does for a marker; the edges that point at it stay
    behind as dangling references. *)
Definition remove (labels : list t) (id : string) : list t :=
    database.remove labels (fun l => String.eqb (_id l) id).

End Label.

Module Actor.

Record t : Type := mk { _id : string; name : string; aliases : list string }.

(** Modelled from the spec: [Actor.getById] is not part of the sources at
    hand; it is [findOne] on the actor collection by [_id]. *)
Definition getById (actors : list t) (id : string) : option t :=
    database.findOne actors (fun a => String.eqb (_id a) id).

End Actor.

Module Scene.

Record t : Type := mk { _id : string; name : string; path : option string }.

(** Modelled from the spec: [Scene.getById] is [findOne] on the scene
    collection; the result is [null] when the scene was deleted. *)
Definition getById (scenes : list t) (id : string) : option t :=
    database.findOne scenes (fun s => String.eqb (_id s) id).

End Scene.

(** [database.store]: the collections the marker code reads and writes. *)
Record Store : Type := mkStore {
  crossReferences : list CrossReference.t;
  labels : list Label.t;
  actors : list Actor.t;
  scenes : list Scene.t
}.

Module Marker.

(** The fields of class [Marker]; [customFields], an untyped bag that none
    of the functions below reads, is left out. *)
Record t : Type := mk {
    _id : string;
    name : string;
    addedOn : Z;
    favorite : bool;
    bookmark : option Z;
    rating : Z;
    scene : string;
    time : Z;
    thumbnail : option string
  }.

End Marker.

Definition isLabelRef (r : CrossReference.t) : bool :=
  String.prefix "la_" (CrossReference.to r).

Section MarkerClass.

(** [generateHash] draws a random identifier; the [k]-th identifier drawn
    during one call is [generateHash k]. *)
Variable generateHash : nat -> string.

Definition withCrossReferences (db : Store) (crs : list CrossReference.t) : Store :=
    {| crossReferences := crs; labels := labels db;
       actors := actors db; scenes := scenes db |}.

(** The first loop of [setLabels]: one [database.remove] per old id. *)
Fixpoint removeAll (crs : list CrossReference.t) (ids : list string)
    : list CrossReference.t :=
    match ids with
    | [] => crs
    | id :: rest =>
        removeAll
          (database.remove crs (fun r => String.eqb (CrossReference._id r) id))
          rest
    end.

(** The second loop: one [new CrossReference] and one [database.insert]
    per element of the set. *)
Fixpoint insertAll (crs : list CrossReference.t) (source : string)
           (k : nat) (ids : list string) : list CrossReference.t :=
    match ids with
    | [] => crs
    | id :: rest =>
        let crossReference := CrossReference.mk (generateHash k) source id in
        insertAll (database.insert crs crossReference) source (S k) rest
    end.

Definition Marker_setLabels (db : Store) (marker : Marker.t)
             (labelIds : list string) : Store :=
    let references :=
      CrossReference.getBySource (crossReferences db) (Marker._id marker) in
    let oldLabelReferences :=
      map CrossReference._id (filter isLabelRef references) in
    let crs := removeAll (crossReferences db) oldLabelReferences in
    withCrossReferences db
      (insertAll crs (Marker._id marker) 0 (Set_of labelIds)).

Definition Marker_getLabels (db : Store) (marker : Marker.t) : list Label.t :=
    let references :=
      CrossReference.getBySource (crossReferences db) (Marker._id marker) in
    filter_Boolean
      (map (fun r => Label.getById (labels db) (CrossReference.to r))
           (filter isLabelRef references)).

End MarkerClass.

(** ** The index engine (Gianna) *)

Module Gianna.

(** [sort_type] is typed as a string, but [searchMarkers] fills it from an
    object-literal lookup: the value is a type tag, [undefined], or a
    property inherited from [Object.prototype]. *)
Inductive SortType : Type :=
| Tag (s : string)
| Undefined
| Inherited (key : string).

Record ISortOptions : Type := mkSort {
  sort_by : string;
  sort_asc : bool;
  sort_type : SortType
}.

Inductive GroupType : Type := AND | OR.

(** Modelled from the spec: the leaf predicates of section 6 (equality,
    existence, threshold, set membership); their wire format is in
    [./common] and [./internal], which are not part of the sources at
    hand. *)
Inductive Predicate : Type :=
| IsEqual (field : string) (value : bool)
| Exists (field : string) (present : bool)
| AtLeast (field : string) (floor : Z)
| ContainsAll (field : string) (ids : list string)
| ContainsNone (field : string) (ids : list string).

Inductive IFilterTree : Type :=
| Grouping (type : GroupType) (children : list IFilterTree)
| Leaf (condition : Predicate).

Record ISearchRequest : Type := mkRequest {
  query : option string;
  sort : option ISortOptions;
  filter : IFilterTree;
  skip : Z;
  take : Z
}.

End Gianna.

Module IMarkerSearchDoc.

Record t : Type := mk {
  _id : string;
  addedOn : Z;
  name : string;
  actors : list string;
  actorNames : list string;
  labels : list string;
  labelNames : list string;
  rating : Z;
  bookmark : option Z;
  favorite : bool;
  scene : string;
  sceneName : string
}.

End IMarkerSearchDoc.

(** What the engine has been asked to do, oldest call first. *)
Inductive EngineCall : Type :=
| IndexCall (docs : list IMarkerSearchDoc.t)
| SearchCall (request : Gianna.ISearchRequest).

Definition Engine : Type := list EngineCall.

(** ** [./common]: pagination and filters *)

Module IMarkerSearchQuery.

(** [Partial<IMarkerSearchQuery>]: every field may be missing. *)
Record t : Type := mk {
  query : option string;
  favorite : option bool;
  bookmark : option bool;
  rating : option Z;
  include : option (list string);
  exclude : option (list string);
  sortBy : option string;
  sortDir : option string;
  skip : option Z;
  take : option Z;
  page : option Z
}.

End IMarkerSearchQuery.

Record Pagination : Type := mkPagination { pg_skip : Z; pg_take : Z }.

Section Common.

Variable DEFAULT_PAGE_SIZE : Z.

(** Modelled from the spec: [buildPagination] lives in [./common], which is
    not part of the sources at hand.  Section 4.5: [{page}] (0-based) comes
    with an implicit page size and gives [skip = page * size, take = size];
    explicit [skip]/[take] override [page]; with nothing given the default
    is [skip = 0, take = DEFAULT_PAGE_SIZE]. *)
Definition buildPagination (take skip page : option Z) : Pagination :=
  {| pg_skip :=
       match skip with
       | Some sk => sk
       | None =>
           match page with
           | Some p => p * DEFAULT_PAGE_SIZE
           | None => 0
           end
       end;
     pg_take :=
       match take with
       | Some tk => tk
       | None => DEFAULT_PAGE_SIZE
       end |}%Z.

End Common.

(** [filter.children.push(child)] on a grouping node. *)
Definition pushChild (f : Gianna.IFilterTree) (child : Gianna.IFilterTree)
  : Gianna.IFilterTree :=
  match f with
  | Gianna.Grouping ty children => Gianna.Grouping ty (children ++ [child])
  | Gianna.Leaf c => Gianna.Leaf c
  end.

(** Modelled from the spec: the five filter functions live in [./common],
    which is not part of the sources at hand.  Section 4.4: each active
    filter appends one child predicate to the grouping, an absent filter
    appends nothing; [favorite] is a boolean predicate, [bookmark] an
    existence predicate, [rating] a floor, [include] requires all listed
    ids and [exclude] the absence of all of them. *)
Definition filterFavorites (f : Gianna.IFilterTree) (options : IMarkerSearchQuery.t)
  : Gianna.IFilterTree :=
  match IMarkerSearchQuery.favorite options with
  | Some b => pushChild f (Gianna.Leaf (Gianna.IsEqual "favorite" b))
  | None => f
  end.

Definition filterBookmark (f : Gianna.IFilterTree) (options : IMarkerSearchQuery.t)
  : Gianna.IFilterTree :=
  match IMarkerSearchQuery.bookmark options with
  | Some b => pushChild f (Gianna.Leaf (Gianna.Exists "bookmark" b))
  | None => f
  end.

Definition filterRating (f : Gianna.IFilterTree) (options : IMarkerSearchQuery.t)
  : Gianna.IFilterTree :=
  match IMarkerSearchQuery.rating options with
  | Some n => pushChild f (Gianna.Leaf (Gianna.AtLeast "rating" n))
  | None => f
  end.

Definition filterInclude (f : Gianna.IFilterTree) (options : IMarkerSearchQuery.t)
  : Gianna.IFilterTree :=
  match IMarkerSearchQuery.include options with
  | Some ids => pushChild f (Gianna.Leaf (Gianna.ContainsAll "labels" ids))
  | None => f
  end.

Definition filterExclude (f : Gianna.IFilterTree) (options : IMarkerSearchQuery.t)
  : Gianna.IFilterTree :=
  match IMarkerSearchQuery.exclude options with
  | Some ids => pushChild f (Gianna.Leaf (Gianna.ContainsNone "labels" ids))
  | None => f
  end.

(** ** [src/search/marker.ts] *)

Section SearchMarker.

(** The id prefix of actors: the edges of a scene that lead to its actors. *)
Variable actorPrefix : string.

(** What [Scene.getActors] answers when it is handed [null]: a list of
    actors, or an exception.  [Scene.getActors] is not part of the sources
    at hand, and [createMarkerSearchDoc] hands it the result of
    [Scene.getById] unchecked. *)
Variable ofNull : result (list Actor.t).

(** [argv["index-slice-size"]], when the option was given. *)
Variable index_slice_size : option Z.

Variable DEFAULT_PAGE_SIZE : Z.

(** What the engine answers to a search, given what it was sent before. *)
Variable ISearchResults : Type.
Variable engineSearch : Engine -> Gianna.ISearchRequest -> ISearchResults.

(** Modelled from the spec: [Scene.getActors] is not part of the sources at
    hand.  Section 4.2 has the actors of a scene resolved through
    cross-reference lookups chained through the scene, dropping the targets
    that no longer exist.  What it does without a scene is [ofNull]. *)
Definition Scene_getActors (db : Store) (scene : option Scene.t)
  : result (list Actor.t) :=
  match scene with
  | None => ofNull
  | Some sc =>
      let references :=
        CrossReference.getBySource (crossReferences db) (Scene._id sc) in
      Ok (filter_Boolean
            (map (fun r => Actor.getById (actors db) (CrossReference.to r))
                 (filter (fun r => String.prefix actorPrefix (CrossReference.to r))
                         references)))
  end.

(** [xs.map(x => [x.name, ...x.aliases]).flat()] *)
Definition namesOf {A : Type} (name : A -> string) (aliases : A -> list string)
           (xs : list A) : list string :=
  List.concat (map (fun x => name x :: aliases x) xs).

Definition createMarkerSearchDoc (db : Store) (marker : Marker.t)
  : result IMarkerSearchDoc.t :=
  let labels := Marker_getLabels db marker in
  let scene := Scene.getById (scenes db) (Marker.scene marker) in
  actors <- Scene_getActors db scene ;;
  Ok {| IMarkerSearchDoc._id := Marker._id marker;
        IMarkerSearchDoc.addedOn := Marker.addedOn marker;
        IMarkerSearchDoc.name := Marker.name marker;
        IMarkerSearchDoc.actors := map Actor._id actors;
        IMarkerSearchDoc.actorNames := namesOf Actor.name Actor.aliases actors;
        IMarkerSearchDoc.labels := map Label._id labels;
        IMarkerSearchDoc.labelNames := namesOf Label.name Label.aliases labels;
        IMarkerSearchDoc.scene :=
          match scene with Some sc => Scene._id sc | None => "" end;
        IMarkerSearchDoc.sceneName :=
          match scene with Some sc => Scene.name sc | None => "" end;
        IMarkerSearchDoc.rating := Marker.rating marker;
        IMarkerSearchDoc.bookmark := Marker.bookmark marker;
        IMarkerSearchDoc.favorite := Marker.favorite marker |}.

(** [index.index(docs)]: one flush. *)
Definition addMarkerSearchDocs (docs : list IMarkerSearchDoc.t) (engine : Engine)
  : Engine :=
  engine ++ [IndexCall docs].

(** [argv["index-slice-size"] || 5000] *)
Definition sliceSize : Z :=
  match index_slice_size with
  | Some n => if (n =? 0)%Z then 5000%Z else n
  | None => 5000%Z
  end.

(** The [for ... of] loop of [indexMarkers], from the state
    [(docs, numItems)] on; the engine log is threaded through. *)
Fixpoint indexMarkers_loop (db : Store) (markers : list Marker.t)
         (docs : list IMarkerSearchDoc.t) (numItems : nat) (engine : Engine)
  : result (list IMarkerSearchDoc.t * nat) * Engine :=
  match markers with
  | [] => (Ok (docs, numItems), engine)
  | marker :: rest =>
      match createMarkerSearchDoc db marker with
      | Throw e => (Throw e, engine)
      | Ok doc =>
          let docs := docs ++ [doc] in
          if (Z.of_nat (List.length docs) =? sliceSize)%Z
          then indexMarkers_loop db rest [] (numItems + List.length docs)
                 (addMarkerSearchDocs docs engine)
          else indexMarkers_loop db rest docs numItems engine
      end
  end.

Definition indexMarkers (db : Store) (markers : list Marker.t) (engine : Engine)
  : result nat * Engine :=
  match indexMarkers_loop db markers [] 0 engine with
  | (Throw e, engine') => (Throw e, engine')
  | (Ok (docs, numItems), engine') =>
      match List.length docs with
      | O => (Ok numItems, engine')
      | S _ => (Ok (numItems + List.length docs), addMarkerSearchDocs docs engine')
      end
  end.

(** The names an object literal inherits from [Object.prototype]. *)
Definition objectPrototypeKeys : list string :=
  [ "constructor"; "hasOwnProperty"; "isPrototypeOf"; "propertyIsEnumerable";
    "toLocaleString"; "toString"; "valueOf"; "__proto__";
    "__defineGetter__"; "__defineSetter__";
    "__lookupGetter__"; "__lookupSetter__" ].

(** [{ addedOn: "number", name: "string", rating: "number",
       bookmark: "number" }[key]] *)
Definition sortTypeOf (key : string) : Gianna.SortType :=
  if key =? "addedOn" then Gianna.Tag "number"
  else if key =? "name" then Gianna.Tag "string"
  else if key =? "rating" then Gianna.Tag "number"
  else if key =? "bookmark" then Gianna.Tag "number"
  else if existsb (String.eqb key) objectPrototypeKeys then Gianna.Inherited key
  else Gianna.Undefined.

(** The [sort] variable of [searchMarkers] after the [if (options.sortBy)]
    block; the empty string is falsy. *)
Definition sortOf (options : IMarkerSearchQuery.t) (shuffleSeed : string)
  : option Gianna.ISortOptions :=
  match IMarkerSearchQuery.sortBy options with
  | None => None
  | Some sortBy =>
      if sortBy =? "" then None
      else if sortBy =? "$shuffle" then
        Some {| Gianna.sort_by := "$shuffle";
                Gianna.sort_asc := false;
                Gianna.sort_type := Gianna.Tag shuffleSeed |}
      else
        Some {| Gianna.sort_by := sortBy;
                Gianna.sort_asc :=
                  match IMarkerSearchQuery.sortDir options with
                  | Some d => d =? "asc"
                  | None => false
                  end;
                Gianna.sort_type := sortTypeOf sortBy |}
  end.

(** The [filter] object after the five filter calls. *)
Definition filterOf (options : IMarkerSearchQuery.t) : Gianna.IFilterTree :=
  let filter := Gianna.Grouping Gianna.AND [] in
  let filter := filterFavorites filter options in
  let filter := filterBookmark filter options in
  let filter := filterRating filter options in
  let filter := filterInclude filter options in
  filterExclude filter options.

(** The argument of [index.search]. *)
Definition searchRequest (options : IMarkerSearchQuery.t) (shuffleSeed : string)
  : Gianna.ISearchRequest :=
  let p := buildPagination DEFAULT_PAGE_SIZE
             (IMarkerSearchQuery.take options)
             (IMarkerSearchQuery.skip options)
             (IMarkerSearchQuery.page options) in
  {| Gianna.query := IMarkerSearchQuery.query options;
     Gianna.sort := sortOf options shuffleSeed;
     Gianna.filter := filterOf options;
     Gianna.skip := pg_skip p;
     Gianna.take := pg_take p |}.

(** [searchMarkers(options, shuffleSeed = "default")] *)
Definition searchMarkers (options : IMarkerSearchQuery.t)
           (shuffleSeed : option string) (engine : Engine)
  : result ISearchResults * Engine :=
  let seed := match shuffleSeed with Some s => s | None => "default" end in
  let request := searchRequest options seed in
  (Ok (engineSearch engine request), engine ++ [SearchCall request]).

End SearchMarker.

Arguments searchMarkers DEFAULT_PAGE_SIZE {ISearchResults} engineSearch
  options shuffleSeed engine.

(** ** Observations used in the statements *)

Definition isLabelId (id : string) : bool := String.prefix "la_" id.

(** The edges [getLabels] and [setLabels] read for a marker: those that
    start at the marker and lead to a label id. *)
Definition labelEdges (db : Store) (marker : Marker.t) : list CrossReference.t :=
  filter isLabelRef
    (CrossReference.getBySource (crossReferences db) (Marker._id marker)).

Definition isMarkerLabelEdge (marker : Marker.t) (r : CrossReference.t) : bool :=
  String.eqb (CrossReference.from r) (Marker._id marker) && isLabelRef r.

(** An edge as the pair of its ends, without its document id. *)
Definition ends (r : CrossReference.t) : string * string :=
  (CrossReference.from r, CrossReference.to r).

(** The documents the second loop of [setLabels] creates. *)
Fixpoint newReferences (generateHash : nat -> string) (source : string)
         (k : nat) (ids : list string) : list CrossReference.t :=
  match ids with
  | [] => []
  | id :: rest =>
      CrossReference.mk (generateHash k) source id
        :: newReferences generateHash source (S k) rest
  end.

Definition hasIdIn (ids : list string) (r : CrossReference.t) : bool :=
  existsb (String.eqb (CrossReference._id r)) ids.

(** * Sample data *)

Definition sampleHash (k : nat) : string :=
  match k with
  | 0 => "cr_n0"
  | 1 => "cr_n1"
  | 2 => "cr_n2"
  | _ => "cr_nx"
  end.

Definition sampleMarker : Marker.t :=
  {| Marker._id := "mk_1"; Marker.name := "intro"; Marker.addedOn := 1600000000;
     Marker.favorite := true; Marker.bookmark := None; Marker.rating := 7;
     Marker.scene := "sc_1"; Marker.time := 15; Marker.thumbnail := None |}.

(** A marker whose scene has been deleted. *)
Definition orphanMarker : Marker.t :=
  {| Marker._id := "mk_2"; Marker.name := "outro"; Marker.addedOn := 1600000001;
     Marker.favorite := false; Marker.bookmark := Some 3%Z; Marker.rating := 0;
     Marker.scene := "sc_gone"; Marker.time := 90; Marker.thumbnail := None |}.

Definition sampleStore : Store :=
  {| crossReferences :=
       [ CrossReference.mk "cr_1" "mk_1" "la_old";
         CrossReference.mk "cr_2" "mk_1" "ac_1";
         CrossReference.mk "cr_3" "mk_2" "la_old";
         CrossReference.mk "cr_4" "sc_1" "ac_1";
         CrossReference.mk "cr_5" "mk_1" "la_two" ];
     labels :=
       [ Label.mk "la_old" "outdoor" ["outside"];
         Label.mk "la_two" "night" [] ];
     actors := [ Actor.mk "ac_1" "Ann" ["A."] ];
     scenes := [ Scene.mk "sc_1" "first scene" (Some "/videos/a.mp4") ] |}.


(** Deleting a label: its document goes, the edges that point at it stay. *)
Definition deleteLabel (db : Store) (id : string) : Store :=
  {| crossReferences := crossReferences db;
     labels := Label.remove (labels db) id;
     actors := actors db;
     scenes := scenes db |}.

(** A search document with its label fields recomputed from [ls]. *)
Definition withLabels (doc : IMarkerSearchDoc.t) (ls : list Label.t)
  : IMarkerSearchDoc.t :=
  {| IMarkerSearchDoc._id := IMarkerSearchDoc._id doc;
     IMarkerSearchDoc.addedOn := IMarkerSearchDoc.addedOn doc;
     IMarkerSearchDoc.name := IMarkerSearchDoc.name doc;
     IMarkerSearchDoc.actors := IMarkerSearchDoc.actors doc;
     IMarkerSearchDoc.actorNames := IMarkerSearchDoc.actorNames doc;
     IMarkerSearchDoc.labels := map Label._id ls;
     IMarkerSearchDoc.labelNames := namesOf Label.name Label.aliases ls;
     IMarkerSearchDoc.rating := IMarkerSearchDoc.rating doc;
     IMarkerSearchDoc.bookmark := IMarkerSearchDoc.bookmark doc;
     IMarkerSearchDoc.favorite := IMarkerSearchDoc.favorite doc;
     IMarkerSearchDoc.scene := IMarkerSearchDoc.scene doc;
     IMarkerSearchDoc.sceneName := IMarkerSearchDoc.sceneName doc |}.

Definition isNot (id : string) (l : Label.t) : bool :=
  negb (String.eqb (Label._id l) id).

(** The batches a run of the loop of [indexMarkers] hands to the engine
    when the documents [ds] arrive on top of the pending batch [acc], and
    the batch left pending. *)
Fixpoint batches (s : Z) (ds acc : list IMarkerSearchDoc.t)
  : list (list IMarkerSearchDoc.t) * list IMarkerSearchDoc.t :=
  match ds with
  | [] => ([], acc)
  | d :: rest =>
      let acc' := acc ++ [d] in
      if (Z.of_nat (List.length acc') =? s)%Z
      then let (fl, r) := batches s rest [] in (acc' :: fl, r)
      else batches s rest acc'
  end.

(** The flushes of a whole bulk build: the full batches, then the pending
    batch when it is not empty. *)
Definition flushes (s : Z) (ds : list IMarkerSearchDoc.t)
  : list (list IMarkerSearchDoc.t) :=
  let (fl, r) := batches s ds [] in
  match r with
  | [] => fl
  | _ :: _ => fl ++ [r]
  end.

Definition total (fl : list (list IMarkerSearchDoc.t)) : nat :=
  list_sum (map (@List.length _) fl).

(** [markers] and the documents built from them, one for one. *)
Definition built (actorPrefix : string) (ofNull : result (list Actor.t)) (db : Store)
           (markers : list Marker.t) (docs : list IMarkerSearchDoc.t) : Prop :=
  Forall2 (fun m d => createMarkerSearchDoc actorPrefix ofNull db m = Ok d) markers docs.

Definition sampleDoc : IMarkerSearchDoc.t :=
  {| IMarkerSearchDoc._id := "mk_1";
     IMarkerSearchDoc.addedOn := 1600000000;
     IMarkerSearchDoc.name := "intro";
     IMarkerSearchDoc.actors := ["ac_1"];
     IMarkerSearchDoc.actorNames := ["Ann"; "A."];
     IMarkerSearchDoc.labels := ["la_old"; "la_two"];
     IMarkerSearchDoc.labelNames := ["outdoor"; "outside"; "night"];
     IMarkerSearchDoc.rating := 7;
     IMarkerSearchDoc.bookmark := None;
     IMarkerSearchDoc.favorite := true;
     IMarkerSearchDoc.scene := "sc_1";
     IMarkerSearchDoc.sceneName := "first scene" |}.

(** The sort keys [searchMarkers] has a type for. *)
Definition recognizedSortKeys : list string :=
  ["addedOn"; "name"; "rating"; "bookmark"].

Definition isTag (t : Gianna.SortType) : bool :=
  match t with
  | Gianna.Tag _ => true
  | _ => false
  end.

Definition optional {A B : Type} (f : A -> B) (o : option A) : list B :=
  match o with
  | Some a => [f a]
  | None => []
  end.

(** The predicates of the filters a query carries, in the order the
    translator visits them. *)
Definition activeFilters (options : IMarkerSearchQuery.t) : list Gianna.Predicate :=
  optional (Gianna.IsEqual "favorite") (IMarkerSearchQuery.favorite options)
  ++ optional (Gianna.Exists "bookmark") (IMarkerSearchQuery.bookmark options)
  ++ optional (Gianna.AtLeast "rating") (IMarkerSearchQuery.rating options)
  ++ optional (Gianna.ContainsAll "labels") (IMarkerSearchQuery.include options)
  ++ optional (Gianna.ContainsNone "labels") (IMarkerSearchQuery.exclude options).

Definition present {A : Type} (o : option A) : nat :=
  match o with
  | Some _ => 1
  | None => 0
  end.

Definition emptyQuery : IMarkerSearchQuery.t :=
  {| IMarkerSearchQuery.query := None;
     IMarkerSearchQuery.favorite := None;
     IMarkerSearchQuery.bookmark := None;
     IMarkerSearchQuery.rating := None;
     IMarkerSearchQuery.include := None;
     IMarkerSearchQuery.exclude := None;
     IMarkerSearchQuery.sortBy := None;
     IMarkerSearchQuery.sortDir := None;
     IMarkerSearchQuery.skip := None;
     IMarkerSearchQuery.take := None;
     IMarkerSearchQuery.page := None |}.

Definition sortedBy (key : string) (dir : option string) : IMarkerSearchQuery.t :=
  {| IMarkerSearchQuery.query := Some "beach";
     IMarkerSearchQuery.favorite := None;
     IMarkerSearchQuery.bookmark := None;
     IMarkerSearchQuery.rating := None;
     IMarkerSearchQuery.include := None;
     IMarkerSearchQuery.exclude := None;
     IMarkerSearchQuery.sortBy := Some key;
     IMarkerSearchQuery.sortDir := dir;
     IMarkerSearchQuery.skip := None;
     IMarkerSearchQuery.take := None;
     IMarkerSearchQuery.page := None |}.

(** An engine that answers every search with the number of calls it has
    seen so far. *)
Definition countingEngine (engine : Engine) (request : Gianna.ISearchRequest) : nat :=
  List.length engine.

(** ** Further functions of class [Marker] and of [src/search/marker.ts] *)

(** The marker collection, [database.store.markers], is a list of markers. *)

(** [Marker.getAll]: [find] with the empty query. *)
Definition Marker_getAll (markers : list Marker.t) : list Marker.t :=
  database.find markers (fun _ => true).

(** [Marker.getById]: [findOne] by [_id]. *)
Definition Marker_getById (markers : list Marker.t) (id : string) : option Marker.t :=
  database.findOne markers (fun m => String.eqb (Marker._id m) id).

(** [Marker.remove]: [remove] by [_id]. *)
Definition Marker_remove (markers : list Marker.t) (id : string) : list Marker.t :=
  database.remove markers (fun m => String.eqb (Marker._id m) id).

(** [Marker.removeByScene]: [remove] by the [scene] field. *)
Definition Marker_removeByScene (markers : list Marker.t) (scene : Scene.t)
  : list Marker.t :=
  database.remove markers (fun m => String.eqb (Marker.scene m) (Scene._id scene)).

(** Modelled from the spec: [mapAsync] comes from [../utils/async], which is
    not part of the sources at hand; it maps an asynchronous function over
    an array and is rejected as soon as one of the calls is. *)
Fixpoint mapAsync {A B : Type} (xs : list A) (f : A -> result B) : result (list B) :=
  match xs with
  | [] => Ok []
  | x :: rest =>
      y <- f x ;;
      ys <- mapAsync rest f ;;
      Ok (y :: ys)
  end.

(** [updateMarkers]: the documents of [markers], handed to [index.update]
    in one call.  [updates] is the list of the arguments [index.update] has
    been called with, oldest first. *)
Definition updateMarkers (actorPrefix : string) (ofNull : result (list Actor.t)) (db : Store)
           (markers : list Marker.t)
           (updates : list (list IMarkerSearchDoc.t))
  : result unit * list (list IMarkerSearchDoc.t) :=
  match mapAsync markers (createMarkerSearchDoc actorPrefix ofNull db) with
  | Ok docs => (Ok tt, updates ++ [docs])
  | Throw e => (Throw e, updates)
  end.

(** ** Further observations *)

(** Modelled from the spec: what [Scene.getActors] answers without a scene.
    Section 4.2 has a marker whose scene was deleted still produce a
    document, with empty scene-derived fields, and has the builder never
    raise for missing related data: no scene, no actors. *)
Definition emptyForNull : result (list Actor.t) := Ok [].

(** A [Scene.getActors] that rejects a missing scene instead. *)
Definition rejectingNull : result (list Actor.t) :=
  Throw (TypeError "scene is null").


Definition labelExists (db : Store) (id : string) : bool :=
  existsb (fun l => String.eqb (Label._id l) id) (labels db).

Definition actorExists (db : Store) (id : string) : bool :=
  existsb (fun a => String.eqb (Actor._id a) id) (actors db).

(** The edge from [source] to [target], whatever its document id. *)
Definition joins (source target : string) (r : CrossReference.t) : bool :=
  String.eqb (CrossReference.from r) source
  && String.eqb (CrossReference.to r) target.

Definition secondMarker : Marker.t :=
  {| Marker._id := "mk_3"; Marker.name := "middle"; Marker.addedOn := 1600000002;
     Marker.favorite := false; Marker.bookmark := None; Marker.rating := 4;
     Marker.scene := "sc_1"; Marker.time := 40; Marker.thumbnail := None |}.
(** * Lemmas *)

(** ** Lists *)

Lemma filter_filter_andb {A : Type} (f g : A -> bool) (l : list A) :
  filter f (filter g l) = filter (fun x => g x && f x) l.
Proof.
  induction l as [|a l IH]; simpl; [reflexivity|].
  destruct (g a); simpl; [destruct (f a)|]; now rewrite IH.
Qed.

Lemma filter_none {A : Type} (f : A -> bool) (l : list A) :
  (forall x, In x l -> f x = false) -> filter f l = [].
Proof.
  induction l as [|a l IH]; simpl; intros H; [reflexivity|].
  rewrite (H a (or_introl eq_refl)). apply IH. intros x Hx. apply H. now right.
Qed.

Lemma filter_all {A : Type} (f : A -> bool) (l : list A) :
  (forall x, In x l -> f x = true) -> filter f l = l.
Proof.
  induction l as [|a l IH]; simpl; intros H; [reflexivity|].
  rewrite (H a (or_introl eq_refl)). f_equal. apply IH. intros x Hx. apply H. now right.
Qed.

Lemma NoDup_map_injective_on {A B : Type} (f : A -> B) (l : list A) (a b : A) :
  NoDup (map f l) -> In a l -> In b l -> f a = f b -> a = b.
Proof.
  induction l as [|c l IH]; simpl; intros Hnd Ha Hb Hf; [contradiction|].
  inversion Hnd as [|? ? Hnotin Hnd']; subst.
  destruct Ha as [->|Ha], Hb as [->|Hb]; trivial.
  - exfalso. apply Hnotin. rewrite Hf. now apply in_map.
  - exfalso. apply Hnotin. rewrite <- Hf. now apply in_map.
  - now apply IH.
Qed.

Lemma existsb_eqb_In (x : string) (l : list string) :
  existsb (String.eqb x) l = true <-> In x l.
Proof.
  rewrite existsb_exists. split.
  - intros [y [Hy Heq]]. apply String.eqb_eq in Heq. now subst.
  - intros H. exists x. split; [assumption | apply String.eqb_refl].
Qed.

(** ** The JavaScript [Set] *)

Lemma fold_Set_add_In (xs acc : list string) (x : string) :
  In x (fold_left Set_add xs acc) <-> In x acc \/ In x xs.
Proof.
  revert acc. induction xs as [|y xs IH]; intros acc; simpl.
  - tauto.
  - rewrite IH. unfold Set_add. destruct (in_dec string_dec y acc) as [Hy|Hy].
    + split; [tauto|]. intros [H|[->|H]]; auto.
    + rewrite in_app_iff. simpl. tauto.
Qed.

Lemma fold_Set_add_NoDup (xs acc : list string) :
  NoDup acc -> NoDup (fold_left Set_add xs acc).
Proof.
  revert acc. induction xs as [|y xs IH]; intros acc Hacc; simpl; [assumption|].
  apply IH. unfold Set_add. destruct (in_dec string_dec y acc) as [Hy|Hy]; [assumption|].
  apply NoDup_app; [assumption | repeat constructor; simpl; tauto |].
  intros a Ha [<-|[]]. contradiction.
Qed.

Lemma fold_Set_add_fresh (xs acc : list string) :
  NoDup (acc ++ xs) -> fold_left Set_add xs acc = acc ++ xs.
Proof.
  revert acc. induction xs as [|y xs IH]; intros acc Hnd; simpl.
  - now rewrite app_nil_r.
  - unfold Set_add. destruct (in_dec string_dec y acc) as [Hy|Hy].
    + exfalso. apply NoDup_remove_2 in Hnd. apply Hnd. rewrite in_app_iff. now left.
    + replace (acc ++ y :: xs) with ((acc ++ [y]) ++ xs) in *
        by (rewrite <- app_assoc; reflexivity).
      now apply IH.
Qed.

Lemma Set_of_In (xs : list string) (x : string) : In x (Set_of xs) <-> In x xs.
Proof. unfold Set_of. rewrite fold_Set_add_In. simpl. tauto. Qed.

Lemma Set_of_NoDup (xs : list string) : NoDup (Set_of xs).
Proof. apply fold_Set_add_NoDup. constructor. Qed.

Lemma Set_of_idempotent (xs : list string) : Set_of (Set_of xs) = Set_of xs.
Proof.
  unfold Set_of at 1. apply (fold_Set_add_fresh (Set_of xs) []). simpl.
  apply Set_of_NoDup.
Qed.

Lemma Set_of_xxy (x y : string) : x <> y -> Set_of [x; x; y] = [x; y].
Proof.
  intros Hxy. unfold Set_of, Set_add. simpl.
  destruct (string_dec x x) as [_|H]; [|congruence].
  destruct (in_dec string_dec x [x]) as [_|H]; [|exfalso; apply H; now left].
  destruct (in_dec string_dec y [x]) as [[H|[]]|_]; [congruence|reflexivity].
Qed.

(** ** The two loops of [setLabels] *)

Lemma removeAll_filter (ids : list string) (crs : list CrossReference.t) :
  removeAll crs ids = filter (fun r => negb (hasIdIn ids r)) crs.
Proof.
  revert crs. induction ids as [|id ids IH]; intros crs; simpl.
  - symmetry. apply filter_all. reflexivity.
  - rewrite IH. unfold database.remove. rewrite filter_filter_andb.
    apply filter_ext. intros r. unfold hasIdIn. simpl.
    now rewrite negb_orb.
Qed.

Lemma insertAll_app (gen : nat -> string) (source : string) (ids : list string) :
  forall k crs,
    insertAll gen crs source k ids = crs ++ newReferences gen source k ids.
Proof.
  induction ids as [|id ids IH]; intros k crs; simpl.
  - now rewrite app_nil_r.
  - rewrite IH. unfold database.insert. now rewrite <- app_assoc.
Qed.

Lemma newReferences_ends (gen : nat -> string) (source : string) (ids : list string) :
  forall k, map ends (newReferences gen source k ids) = map (pair source) ids.
Proof. induction ids as [|id ids IH]; intros k; simpl; [reflexivity|]. now rewrite IH. Qed.

Lemma newReferences_filter (gen : nat -> string) (m : Marker.t) (ids : list string) :
  forall k,
    map ends (filter (isMarkerLabelEdge m) (newReferences gen (Marker._id m) k ids))
    = map (pair (Marker._id m)) (filter isLabelId ids).
Proof.
  induction ids as [|id ids IH]; intros k; simpl; [reflexivity|].
  unfold isMarkerLabelEdge at 1, isLabelRef at 1. simpl.
  rewrite String.eqb_refl. simpl. fold (isLabelId id).
  destruct (isLabelId id); simpl; now rewrite IH.
Qed.

Lemma newReferences_no_label (gen : nat -> string) (m : Marker.t) (ids : list string) :
  forall k,
    Forall (fun id => isLabelId id = true) ids ->
    filter (fun r => negb (isMarkerLabelEdge m r))
           (newReferences gen (Marker._id m) k ids) = [].
Proof.
  induction ids as [|id ids IH]; intros k Hall; simpl; [reflexivity|].
  inversion Hall as [|? ? Hid Hrest]; subst.
  unfold isMarkerLabelEdge at 1, isLabelRef at 1. simpl.
  rewrite String.eqb_refl. fold (isLabelId id). rewrite Hid. simpl. now apply IH.
Qed.

Lemma labelEdges_filter (db : Store) (m : Marker.t) :
  labelEdges db m = filter (isMarkerLabelEdge m) (crossReferences db).
Proof.
  unfold labelEdges, CrossReference.getBySource, database.find.
  now rewrite filter_filter_andb.
Qed.

Lemma setLabels_crossReferences (gen : nat -> string) (db : Store) (m : Marker.t)
      (labelIds : list string) :
  crossReferences (Marker_setLabels gen db m labelIds)
  = filter (fun r => negb (hasIdIn (map CrossReference._id (labelEdges db m)) r))
           (crossReferences db)
    ++ newReferences gen (Marker._id m) 0 (Set_of labelIds).
Proof.
  unfold Marker_setLabels. simpl. rewrite insertAll_app, removeAll_filter.
  reflexivity.
Qed.

Lemma old_label_edges_removed (db : Store) (m : Marker.t) :
  filter (isMarkerLabelEdge m)
    (filter (fun r => negb (hasIdIn (map CrossReference._id (labelEdges db m)) r))
            (crossReferences db)) = [].
Proof.
  rewrite filter_filter_andb. apply filter_none. intros r Hr.
  destruct (isMarkerLabelEdge m r) eqn:E; [|now rewrite andb_false_r].
  rewrite andb_true_r. apply negb_false_iff. unfold hasIdIn.
  apply existsb_eqb_In. apply in_map. rewrite labelEdges_filter.
  apply filter_In. now split.
Qed.

Lemma other_edges_kept (db : Store) (m : Marker.t) :
  NoDup (map CrossReference._id (crossReferences db)) ->
  filter (fun r => negb (isMarkerLabelEdge m r))
    (filter (fun r => negb (hasIdIn (map CrossReference._id (labelEdges db m)) r))
            (crossReferences db))
  = filter (fun r => negb (isMarkerLabelEdge m r)) (crossReferences db).
Proof.
  intros Hnd. rewrite filter_filter_andb. apply filter_ext_in. intros r Hr.
  destruct (isMarkerLabelEdge m r) eqn:E; simpl; [now rewrite andb_false_r|].
  rewrite andb_true_r. apply negb_true_iff.
  destruct (hasIdIn _ r) eqn:Hin; [exfalso | reflexivity].
  unfold hasIdIn in Hin. apply existsb_eqb_In in Hin. apply in_map_iff in Hin.
  destruct Hin as [r' [Hid Hr']]. rewrite labelEdges_filter in Hr'.
  apply filter_In in Hr'. destruct Hr' as [Hr' Hml].
  assert (r' = r) by (eapply NoDup_map_injective_on; eauto). subst r'.
  congruence.
Qed.


(** ** Dangling labels *)

Lemma getById_id (ls : list Label.t) (id : string) (l : Label.t) :
  Label.getById ls id = Some l -> Label._id l = id.
Proof.
  unfold Label.getById, database.findOne. intros H.
  apply find_some in H. now apply String.eqb_eq.
Qed.

Lemma getById_remove (ls : list Label.t) (gone id : string) :
  Label.getById (Label.remove ls gone) id
  = if String.eqb id gone then None else Label.getById ls id.
Proof.
  unfold Label.getById, Label.remove, database.findOne, database.remove.
  induction ls as [|l ls IH]; simpl.
  - now destruct (String.eqb id gone).
  - destruct (String.eqb (Label._id l) gone) eqn:Hg; simpl.
    + rewrite IH. destruct (String.eqb id gone) eqn:Hi; [reflexivity|].
      destruct (String.eqb (Label._id l) id) eqn:Hl; [|reflexivity].
      apply String.eqb_eq in Hg, Hl. apply String.eqb_neq in Hi. congruence.
    + destruct (String.eqb (Label._id l) id) eqn:Hl.
      * apply String.eqb_eq in Hl. subst id. now rewrite Hg.
      * exact IH.
Qed.

Lemma resolve_after_delete (ls : list Label.t) (gone : string)
      (refs : list CrossReference.t) :
  filter_Boolean
    (map (fun r => Label.getById (Label.remove ls gone) (CrossReference.to r)) refs)
  = filter (isNot gone)
      (filter_Boolean (map (fun r => Label.getById ls (CrossReference.to r)) refs)).
Proof.
  induction refs as [|r refs IH]; simpl; [reflexivity|].
  rewrite getById_remove.
  destruct (Label.getById ls (CrossReference.to r)) as [l|] eqn:Hl.
  - apply getById_id in Hl. simpl. unfold isNot at 1. rewrite Hl.
    destruct (String.eqb (CrossReference.to r) gone); simpl; now rewrite IH.
  - destruct (String.eqb (CrossReference.to r) gone); simpl; exact IH.
Qed.

Lemma getLabels_after_delete (db : Store) (m : Marker.t) (gone : string) :
  Marker_getLabels (deleteLabel db gone) m
  = filter (isNot gone) (Marker_getLabels db m).
Proof. unfold Marker_getLabels. simpl. apply resolve_after_delete. Qed.

Lemma ids_without (gone : string) (ls : list Label.t) :
  map Label._id (filter (isNot gone) ls)
  = filter (fun id => negb (String.eqb id gone)) (map Label._id ls).
Proof.
  induction ls as [|l ls IH]; simpl; [reflexivity|].
  unfold isNot at 1. destruct (String.eqb (Label._id l) gone); simpl; now rewrite IH.
Qed.

Lemma createMarkerSearchDoc_total
      (actorPrefix : string) (ofNull : result (list Actor.t))
      (db : Store) (m : Marker.t) :
  forall sc, Scene.getById (scenes db) (Marker.scene m) = Some sc ->
             exists doc, createMarkerSearchDoc actorPrefix ofNull db m = Ok doc.
Proof.
  intros sc Hsc. unfold createMarkerSearchDoc. rewrite Hsc. simpl. eauto.
Qed.

(** ** The loop of [indexMarkers] *)

Section Batches.

Variable s : Z.

Lemma batches_concat (ds : list IMarkerSearchDoc.t) :
  forall acc fl r, batches s ds acc = (fl, r) -> List.concat fl ++ r = acc ++ ds.
Proof.
  induction ds as [|d ds IH]; simpl; intros acc fl r H.
  - inversion H; subst. simpl. now rewrite app_nil_r.
  - destruct (Z.of_nat (List.length (acc ++ [d])) =? s)%Z.
    + destruct (batches s ds []) as [fl' r'] eqn:E. inversion H; subst.
      simpl. rewrite <- !app_assoc. simpl. f_equal. f_equal.
      now apply (IH [] fl' r).
    + rewrite (IH _ _ _ H). now rewrite <- app_assoc.
Qed.

Lemma batches_full (ds : list IMarkerSearchDoc.t) :
  forall acc fl r,
    batches s ds acc = (fl, r) ->
    Forall (fun b => Z.of_nat (List.length b) = s) fl.
Proof.
  induction ds as [|d ds IH]; simpl; intros acc fl r H.
  - inversion H. constructor.
  - destruct (Z.of_nat (List.length (acc ++ [d])) =? s)%Z eqn:Hs.
    + destruct (batches s ds []) as [fl' r'] eqn:E. inversion H; subst.
      constructor; [now apply Z.eqb_eq | now apply (IH [] fl' r)].
    + now apply (IH _ _ _ H).
Qed.

Lemma batches_pending (ds : list IMarkerSearchDoc.t) :
  forall acc fl r,
    batches s ds acc = (fl, r) ->
    (Z.of_nat (List.length acc) < s)%Z ->
    (Z.of_nat (List.length r) < s)%Z.
Proof.
  induction ds as [|d ds IH]; simpl; intros acc fl r H Hacc.
  - now inversion H; subst.
  - destruct (Z.of_nat (List.length (acc ++ [d])) =? s)%Z eqn:Hs.
    + destruct (batches s ds []) as [fl' r'] eqn:E. inversion H; subst.
      apply (IH [] fl' r E). simpl. apply Z.eqb_eq in Hs.
      rewrite length_app in Hs. simpl in Hs. lia.
    + apply (IH _ _ _ H). apply Z.eqb_neq in Hs.
      rewrite length_app in *. simpl in *. lia.
Qed.

Lemma batches_app (ds1 ds2 : list IMarkerSearchDoc.t) :
  forall acc,
    batches s (ds1 ++ ds2) acc
    = let (fl1, r1) := batches s ds1 acc in
      let (fl2, r2) := batches s ds2 r1 in
      (fl1 ++ fl2, r2).
Proof.
  induction ds1 as [|d ds1 IH]; simpl; intros acc.
  - now destruct (batches s ds2 acc).
  - destruct (Z.of_nat (List.length (acc ++ [d])) =? s)%Z.
    + rewrite IH. destruct (batches s ds1 []) as [fl1 r1].
      now destruct (batches s ds2 r1).
    + apply IH.
Qed.

Lemma batches_below (ds : list IMarkerSearchDoc.t) :
  forall acc,
    (Z.of_nat (List.length acc + List.length ds) < s)%Z ->
    batches s ds acc = ([], acc ++ ds).
Proof.
  induction ds as [|d ds IH]; simpl; intros acc H.
  - now rewrite app_nil_r.
  - destruct (Z.of_nat (List.length (acc ++ [d])) =? s)%Z eqn:Hs.
    + apply Z.eqb_eq in Hs. rewrite length_app in Hs. simpl in Hs. lia.
    + rewrite IH; [now rewrite <- app_assoc|].
      rewrite length_app. simpl. lia.
Qed.

Lemma batches_exact (ds : list IMarkerSearchDoc.t) :
  forall acc,
    ds <> [] ->
    Z.of_nat (List.length acc + List.length ds) = s ->
    batches s ds acc = ([acc ++ ds], []).
Proof.
  induction ds as [|d ds IH]; simpl; intros acc Hne H; [congruence|].
  destruct (Z.of_nat (List.length (acc ++ [d])) =? s)%Z eqn:Hs.
  - apply Z.eqb_eq in Hs. rewrite length_app in Hs. simpl in Hs.
    assert (ds = []) by (destruct ds; [reflexivity | simpl in *; lia]).
    subst ds. reflexivity.
  - apply Z.eqb_neq in Hs. rewrite length_app in Hs. simpl in Hs.
    assert (ds <> []) by (intros ->; simpl in *; lia).
    rewrite IH; [now rewrite <- app_assoc | assumption |].
    rewrite length_app. simpl. lia.
Qed.

Lemma total_app (fl1 fl2 : list (list IMarkerSearchDoc.t)) :
  total (fl1 ++ fl2) = total fl1 + total fl2.
Proof. unfold total. now rewrite map_app, list_sum_app. Qed.

Lemma total_concat (fl : list (list IMarkerSearchDoc.t)) :
  total fl = List.length (List.concat fl).
Proof.
  unfold total. induction fl as [|b fl IH]; simpl; [reflexivity|].
  now rewrite length_app, IH.
Qed.

Lemma flushes_concat (ds : list IMarkerSearchDoc.t) :
  List.concat (flushes s ds) = ds.
Proof.
  unfold flushes. destruct (batches s ds []) as [fl r] eqn:E.
  apply batches_concat in E. simpl in E. destruct r.
  - now rewrite app_nil_r in E.
  - rewrite concat_app. simpl. now rewrite app_nil_r.
Qed.

Lemma flushes_total (ds : list IMarkerSearchDoc.t) :
  total (flushes s ds) = List.length ds.
Proof. now rewrite total_concat, flushes_concat. Qed.

End Batches.

Lemma sliceSize_nonzero (cfg : option Z) : sliceSize cfg <> 0%Z.
Proof.
  unfold sliceSize. destruct cfg as [n|]; [|discriminate].
  destruct (n =? 0)%Z eqn:E; [discriminate | now apply Z.eqb_neq].
Qed.

Section Loop.

Variable actorPrefix : string.
Variable ofNull : result (list Actor.t).
Variable cfg : option Z.
Variable db : Store.

Lemma indexMarkers_loop_built (markers : list Marker.t) (docs : list IMarkerSearchDoc.t) :
  built actorPrefix ofNull db markers docs ->
  forall acc n engine,
    indexMarkers_loop actorPrefix ofNull cfg db markers acc n engine
    = let (fl, r) := batches (sliceSize cfg) docs acc in
      (Ok (r, n + total fl), engine ++ map IndexCall fl).
Proof.
  induction 1 as [|m d markers docs Hd _ IH]; intros acc n engine; simpl.
  - unfold total. simpl. now rewrite Nat.add_0_r, app_nil_r.
  - rewrite Hd.
    destruct (Z.of_nat (List.length (acc ++ [d])) =? sliceSize cfg)%Z.
    + rewrite IH. destruct (batches (sliceSize cfg) docs []) as [fl r].
      unfold addMarkerSearchDocs. rewrite <- app_assoc. simpl.
      f_equal. f_equal. f_equal. unfold total. simpl. lia.
    + apply IH.
Qed.

Lemma indexMarkers_loop_count (markers : list Marker.t) :
  forall acc n engine r n' engine',
    indexMarkers_loop actorPrefix ofNull cfg db markers acc n engine = (Ok (r, n'), engine') ->
    n' + List.length r = n + List.length acc + List.length markers.
Proof.
  induction markers as [|m markers IH]; simpl; intros acc n engine r n' engine' H.
  - inversion H; subst. lia.
  - destruct (createMarkerSearchDoc actorPrefix ofNull db m) as [d|e]; [|discriminate].
    destruct (Z.of_nat (List.length (acc ++ [d])) =? sliceSize cfg)%Z.
    + apply IH in H. rewrite length_app in H. simpl in *. lia.
    + apply IH in H. rewrite length_app in H. simpl in *. lia.
Qed.

Lemma indexMarkers_built (markers : list Marker.t) (docs : list IMarkerSearchDoc.t)
      (engine : Engine) :
  built actorPrefix ofNull db markers docs ->
  indexMarkers actorPrefix ofNull cfg db markers engine
  = (Ok (List.length markers),
     engine ++ map IndexCall (flushes (sliceSize cfg) docs)).
Proof.
  intros Hb. unfold indexMarkers, flushes.
  rewrite (indexMarkers_loop_built _ _ Hb).
  assert (Hlen : List.length markers = List.length docs)
    by (clear engine; induction Hb; simpl; congruence).
  destruct (batches (sliceSize cfg) docs []) as [fl r] eqn:E.
  pose proof E as Hc. apply batches_concat in Hc. simpl in Hc.
  assert (Ht : total fl + List.length r = List.length markers).
  { rewrite Hlen, <- Hc, length_app, total_concat. reflexivity. }
  destruct r as [|d r]; simpl in *.
  - f_equal. f_equal. lia.
  - unfold addMarkerSearchDocs. rewrite map_app, app_assoc. simpl.
    f_equal. f_equal. lia.
Qed.

Lemma built_exists (markers : list Marker.t) :
  (forall m, In m markers ->
             exists sc, Scene.getById (scenes db) (Marker.scene m) = Some sc) ->
  exists docs, built actorPrefix ofNull db markers docs.
Proof.
  induction markers as [|m markers IH]; intros H.
  - exists []. constructor.
  - destruct IH as [docs Hdocs]; [intros; apply H; now right|].
    destruct (H m (or_introl eq_refl)) as [sc Hsc].
    destruct (createMarkerSearchDoc_total actorPrefix ofNull db m sc Hsc) as [d Hd].
    exists (d :: docs). now constructor.
Qed.

End Loop.

(** ** The sort specification *)

Lemma sortTypeOf_unrecognized (key : string) :
  ~ In key recognizedSortKeys -> isTag (sortTypeOf key) = false.
Proof.
  intros Hnot. unfold sortTypeOf.
  destruct (String.eqb key "addedOn") eqn:E1;
    [apply String.eqb_eq in E1; subst; exfalso; apply Hnot; simpl; tauto|].
  destruct (String.eqb key "name") eqn:E2;
    [apply String.eqb_eq in E2; subst; exfalso; apply Hnot; simpl; tauto|].
  destruct (String.eqb key "rating") eqn:E3;
    [apply String.eqb_eq in E3; subst; exfalso; apply Hnot; simpl; tauto|].
  destruct (String.eqb key "bookmark") eqn:E4;
    [apply String.eqb_eq in E4; subst; exfalso; apply Hnot; simpl; tauto|].
  now destruct (existsb (String.eqb key) objectPrototypeKeys).
Qed.

Lemma sortOf_field (options : IMarkerSearchQuery.t) (seed key : string) :
  IMarkerSearchQuery.sortBy options = Some key ->
  key <> "" -> key <> "$shuffle" ->
  sortOf options seed
  = Some {| Gianna.sort_by := key;
            Gianna.sort_asc :=
              match IMarkerSearchQuery.sortDir options with
              | Some d => String.eqb d "asc"
              | None => false
              end;
            Gianna.sort_type := sortTypeOf key |}.
Proof.
  intros Hk Hne Hns. unfold sortOf. rewrite Hk.
  apply String.eqb_neq in Hne, Hns. now rewrite Hne, Hns.
Qed.

(** The translator's part of the seeded shuffle: the sort specification
    names the shuffle marker and carries the seed, so it is the same for
    equal seeds and differs for different ones. *)
Lemma sortOf_shuffle (options : IMarkerSearchQuery.t) (seed : string) :
  IMarkerSearchQuery.sortBy options = Some "$shuffle" ->
  sortOf options seed
  = Some {| Gianna.sort_by := "$shuffle";
            Gianna.sort_asc := false;
            Gianna.sort_type := Gianna.Tag seed |}.
Proof. intros Hk. unfold sortOf. now rewrite Hk. Qed.

Lemma sortOf_shuffle_seed_injective (options : IMarkerSearchQuery.t) (s1 s2 : string) :
  IMarkerSearchQuery.sortBy options = Some "$shuffle" ->
  sortOf options s1 = sortOf options s2 -> s1 = s2.
Proof. intros Hk. rewrite !sortOf_shuffle by assumption. congruence. Qed.

(** Without a scene the build ends as [Scene.getActors] does. *)
Lemma createMarkerSearchDoc_null_scene (actorPrefix : string)
      (ofNull : result (list Actor.t)) (db : Store) (m : Marker.t) (e : Exn) :
  Scene.getById (scenes db) (Marker.scene m) = None ->
  ofNull = Throw e ->
  createMarkerSearchDoc actorPrefix ofNull db m = Throw e.
Proof. intros H He. unfold createMarkerSearchDoc. now rewrite H, He. Qed.

(** * Theorems *)

(** ** [Marker.setLabels] *)

(** C1.  [setLabels] replaces the label relation of a marker: the store
    afterwards is the old store without the documents of the marker's old
    label edges, followed by one new edge from the marker per element of
    the set of [labelIds]; none of the old label edges survives; that set
    has no duplicates and the same members as [labelIds]; the label edges
    of the marker afterwards are exactly the label ids of the set, in
    order; for distinct label ids [x], [y] the input [[x; x; y]] leaves
    exactly the two label edges marker->x and marker->y; and a list with
    duplicates has the same effect as its set. *)
Theorem setLabels_replaces_label_relation
        (gen : nat -> string) (db : Store) (m : Marker.t) (labelIds : list string) :
  let kept :=
    filter (fun r => negb (hasIdIn (map CrossReference._id (labelEdges db m)) r))
           (crossReferences db) in
  crossReferences (Marker_setLabels gen db m labelIds)
    = kept ++ newReferences gen (Marker._id m) 0 (Set_of labelIds)
  /\ filter (isMarkerLabelEdge m) kept = []
  /\ map ends (newReferences gen (Marker._id m) 0 (Set_of labelIds))
     = map (pair (Marker._id m)) (Set_of labelIds)
  /\ NoDup (Set_of labelIds)
  /\ (forall id, In id (Set_of labelIds) <-> In id labelIds)
  /\ map ends (labelEdges (Marker_setLabels gen db m labelIds) m)
     = map (pair (Marker._id m)) (filter isLabelId (Set_of labelIds))
  /\ (forall x y,
        x <> y -> isLabelId x = true -> isLabelId y = true ->
        map ends (labelEdges (Marker_setLabels gen db m [x; x; y]) m)
        = [(Marker._id m, x); (Marker._id m, y)])
  /\ Marker_setLabels gen db m (Set_of labelIds) = Marker_setLabels gen db m labelIds.
Proof.
  assert (Hedges : forall ids,
             map ends (labelEdges (Marker_setLabels gen db m ids) m)
             = map (pair (Marker._id m)) (filter isLabelId (Set_of ids))).
  { intros ids. rewrite labelEdges_filter, setLabels_crossReferences.
    rewrite filter_app, old_label_edges_removed. simpl.
    apply newReferences_filter. }
  cbv zeta. repeat split.
  - apply setLabels_crossReferences.
  - apply old_label_edges_removed.
  - apply newReferences_ends.
  - apply Set_of_NoDup.
  - apply Set_of_In.
  - apply Set_of_In.
  - apply Hedges.
  - intros x y Hxy Hx Hy. rewrite Hedges, Set_of_xxy by assumption.
    simpl. now rewrite Hx, Hy.
  - unfold Marker_setLabels. now rewrite Set_of_idempotent.
Qed.

Lemma setLabels_replaces_label_relation_witness :
  map ends (labelEdges
              (Marker_setLabels sampleHash sampleStore sampleMarker
                                ["la_a"; "la_a"; "la_b"])
              sampleMarker)
  = [("mk_1", "la_a"); ("mk_1", "la_b")].
Proof.
  destruct (setLabels_replaces_label_relation
              sampleHash sampleStore sampleMarker ["la_a"; "la_a"; "la_b"])
    as (_ & _ & _ & _ & _ & _ & Hxxy & _).
  apply (Hxxy "la_a" "la_b"); [discriminate | reflexivity | reflexivity].
Defined.

(** C10.  In a store whose document ids are unique, [setLabels] keeps every
    edge that is not a label edge of the marker (edges of the marker to
    other kinds of entity, and all edges of other sources) as it was, in
    place and in order, and touches no other collection; the only edges it
    adds start at the marker, and for a list of label ids the edges other
    than the marker's label edges are exactly those of before. *)
Theorem setLabels_frame
        (gen : nat -> string) (db : Store) (m : Marker.t) (labelIds : list string) :
  NoDup (map CrossReference._id (crossReferences db)) ->
  let other := fun r => negb (isMarkerLabelEdge m r) in
  let db' := Marker_setLabels gen db m labelIds in
  filter other (crossReferences db')
    = filter other (crossReferences db)
      ++ filter other (newReferences gen (Marker._id m) 0 (Set_of labelIds))
  /\ (forall r, In r (crossReferences db) -> other r = true ->
                In r (crossReferences db'))
  /\ (forall r, In r (crossReferences db') ->
                CrossReference.from r <> Marker._id m ->
                In r (crossReferences db))
  /\ (Forall (fun id => isLabelId id = true) labelIds ->
      filter other (crossReferences db') = filter other (crossReferences db))
  /\ labels db' = labels db /\ actors db' = actors db /\ scenes db' = scenes db.
Proof.
  intros Hnd other db'.
  assert (H1 : filter other (crossReferences db')
               = filter other (crossReferences db)
                 ++ filter other (newReferences gen (Marker._id m) 0 (Set_of labelIds))).
  { unfold db'. rewrite setLabels_crossReferences, filter_app.
    unfold other. now rewrite other_edges_kept. }
  split; [exact H1|]. split; [|split; [|split]].
  - intros r Hr Ho.
    assert (Hin : In r (filter other (crossReferences db'))).
    { rewrite H1, in_app_iff. left. apply filter_In. now split. }
    apply filter_In in Hin. tauto.
  - intros r Hr Hfrom. unfold db' in Hr. rewrite setLabels_crossReferences in Hr.
    apply in_app_iff in Hr. destruct Hr as [Hr|Hr].
    + apply filter_In in Hr. tauto.
    + exfalso. apply Hfrom.
      assert (Hends : In (ends r) (map ends (newReferences gen (Marker._id m) 0
                                                           (Set_of labelIds))))
        by now apply in_map.
      rewrite newReferences_ends in Hends. apply in_map_iff in Hends.
      destruct Hends as [id [Heq _]]. unfold ends in Heq. congruence.
  - intros Hall. rewrite H1. unfold other.
    rewrite newReferences_no_label; [now rewrite app_nil_r|].
    apply Forall_forall. intros id Hid.
    rewrite Forall_forall in Hall. apply Hall. now apply (Set_of_In labelIds id).
  - repeat split.
Qed.

Lemma setLabels_frame_witness :
  filter (fun r => negb (isMarkerLabelEdge sampleMarker r))
         (crossReferences
            (Marker_setLabels sampleHash sampleStore sampleMarker
                              ["la_a"; "la_a"; "la_b"]))
  = [ CrossReference.mk "cr_2" "mk_1" "ac_1";
      CrossReference.mk "cr_3" "mk_2" "la_old";
      CrossReference.mk "cr_4" "sc_1" "ac_1" ].
Proof.
  assert (Hnd : NoDup (map CrossReference._id (crossReferences sampleStore))).
  { simpl. repeat constructor; simpl; intuition discriminate. }
  destruct (setLabels_frame sampleHash sampleStore sampleMarker
                            ["la_a"; "la_a"; "la_b"] Hnd)
    as (_ & _ & _ & Hsame & _).
  rewrite Hsame; [reflexivity|].
  repeat constructor.
Defined.

(** ** [createMarkerSearchDoc] *)



(** C8.  Deleting a label and rebuilding: [getLabels] returns the labels it
    returned before except the deleted one; the rebuilt document is the old
    document with the label fields recomputed from those labels, so the
    deleted id is not among its [labels]; and the rebuild fails only where
    the build before the deletion failed. *)
Theorem deleted_label_dropped
        (actorPrefix : string)
        (ofNull : result (list Actor.t)) (db : Store) (m : Marker.t) (gone : string) :
  let remaining := filter (isNot gone) (Marker_getLabels db m) in
  Marker_getLabels (deleteLabel db gone) m = remaining
  /\ createMarkerSearchDoc actorPrefix ofNull (deleteLabel db gone) m
     = match createMarkerSearchDoc actorPrefix ofNull db m with
       | Ok doc => Ok (withLabels doc remaining)
       | Throw e => Throw e
       end
  /\ map Label._id remaining
     = filter (fun id => negb (String.eqb id gone))
              (map Label._id (Marker_getLabels db m))
  /\ ~ In gone (map Label._id remaining)
  /\ (forall l, In l remaining -> In l (Marker_getLabels db m) /\ Label._id l <> gone).
Proof.
  cbv zeta. split; [apply getLabels_after_delete|]. split; [|split; [|split]].
  - unfold createMarkerSearchDoc. rewrite getLabels_after_delete. simpl.
    destruct (Scene.getById (scenes db) (Marker.scene m));
      [reflexivity | simpl; destruct ofNull; reflexivity].
  - apply ids_without.
  - rewrite ids_without. intros Hin. apply filter_In in Hin.
    destruct Hin as [_ Hneq]. now rewrite String.eqb_refl in Hneq.
  - intros l Hl. apply filter_In in Hl. destruct Hl as [Hin Hneq]. split; [assumption|].
    unfold isNot in Hneq. apply negb_true_iff in Hneq. now apply String.eqb_neq.
Qed.

Lemma deleted_label_dropped_witness :
  createMarkerSearchDoc "ac_" emptyForNull (deleteLabel sampleStore "la_old") sampleMarker
  = Ok (withLabels sampleDoc [Label.mk "la_two" "night" []])
  /\ Label._id (Label.mk "la_two" "night" []) <> "la_old".
Proof.
  destruct (deleted_label_dropped "ac_" emptyForNull sampleStore sampleMarker "la_old")
    as (_ & Hdoc & _ & _ & Hrest).
  split; [rewrite Hdoc; reflexivity|].
  apply (Hrest (Label.mk "la_two" "night" [])). simpl. now left.
Defined.

(** ** [indexMarkers] *)

(** C2.  When every document can be built, the engine receives, after what
    it had received before, one [index] call per batch and nothing else;
    the batches are consecutive slices of the documents in order; every
    batch flushed inside the loop has exactly the slice size, and the last
    one, when the documents do not fill it, is not empty and shorter than
    the slice size.  With as many markers as the slice size there is one
    flush, of all the documents; with one more there are two, the first of
    the slice size and the second of one document. *)
Theorem indexMarkers_flush_boundaries
        (actorPrefix : string) (ofNull : result (list Actor.t)) (cfg : option Z) (db : Store)
        (markers : list Marker.t) (docs : list IMarkerSearchDoc.t) (engine : Engine) :
  built actorPrefix ofNull db markers docs ->
  let s := sliceSize cfg in
  exists full last,
    snd (indexMarkers actorPrefix ofNull cfg db markers engine)
      = engine ++ map IndexCall (full ++ last)
    /\ List.concat (full ++ last) = docs
    /\ Forall (fun b => Z.of_nat (List.length b) = s) full
    /\ (last = [] \/
        exists r, last = [r] /\ r <> [] /\ ((0 < s)%Z -> (Z.of_nat (List.length r) < s)%Z))
    /\ (Z.of_nat (List.length markers) = s -> full ++ last = [docs])
    /\ (forall ds d, docs = ds ++ [d] -> Z.of_nat (List.length ds) = s ->
                     full ++ last = [ds; [d]]).
Proof.
  intros Hb s.
  assert (Hlen : List.length markers = List.length docs)
    by (induction Hb; simpl; congruence).
  assert (Hs : s <> 0%Z) by apply sliceSize_nonzero.
  destruct (batches s docs []) as [fl r] eqn:E.
  assert (Hfl : flushes s docs = fl ++ match r with [] => [] | _ :: _ => [r] end).
  { unfold flushes. rewrite E. destruct r; [now rewrite app_nil_r | reflexivity]. }
  exists fl, (match r with [] => [] | _ :: _ => [r] end).
  rewrite <- Hfl. split; [|split; [|split; [|split; [|split]]]].
  - now rewrite (indexMarkers_built actorPrefix ofNull cfg db markers docs engine Hb).
  - apply flushes_concat.
  - now apply (batches_full s docs [] fl r E).
  - destruct r as [|d r]; [now left|]. right. exists (d :: r).
    split; [reflexivity|]. split; [discriminate|]. intros Hpos.
    now apply (batches_pending s docs [] fl (d :: r) E).
  - intros HN. unfold flushes. rewrite batches_exact; [reflexivity | |].
    + intros ->. simpl in *. lia.
    + simpl. lia.
  - intros ds d -> HN. unfold flushes. rewrite batches_app.
    rewrite (batches_exact s ds []).
    + cbn [batches app List.length]. now destruct (Z.of_nat 1 =? s)%Z.
    + intros ->. simpl in HN. lia.
    + exact HN.
Qed.

Lemma indexMarkers_flush_boundaries_witness :
  snd (indexMarkers "ac_" emptyForNull (Some 2%Z) sampleStore
                    [sampleMarker; sampleMarker; sampleMarker] [])
  = [IndexCall [sampleDoc; sampleDoc]; IndexCall [sampleDoc]].
Proof.
  assert (Hb : built "ac_" emptyForNull sampleStore [sampleMarker; sampleMarker; sampleMarker]
                     [sampleDoc; sampleDoc; sampleDoc])
    by (repeat constructor).
  destruct (indexMarkers_flush_boundaries "ac_" emptyForNull (Some 2%Z) sampleStore
              [sampleMarker; sampleMarker; sampleMarker]
              [sampleDoc; sampleDoc; sampleDoc] [] Hb)
    as (full & last & Hlog & _ & _ & _ & _ & Hplus).
  rewrite Hlog. simpl.
  rewrite (Hplus [sampleDoc; sampleDoc] sampleDoc); reflexivity.
Defined.

(** C9.  Whenever [indexMarkers] returns a number, that number is the
    number of markers it was given; it does return when every document can
    be built, in particular when the scene of every marker exists; and the
    number is the sum of the sizes of the flushes. *)
Theorem indexMarkers_count
        (actorPrefix : string) (ofNull : result (list Actor.t)) (cfg : option Z) (db : Store)
        (markers : list Marker.t) (engine : Engine) :
  (forall n engine',
      indexMarkers actorPrefix ofNull cfg db markers engine = (Ok n, engine') ->
      n = List.length markers)
  /\ (forall docs,
         built actorPrefix ofNull db markers docs ->
         indexMarkers actorPrefix ofNull cfg db markers engine
         = (Ok (List.length markers),
            engine ++ map IndexCall (flushes (sliceSize cfg) docs))
         /\ total (flushes (sliceSize cfg) docs) = List.length markers)
  /\ ((forall m, In m markers ->
                 exists sc, Scene.getById (scenes db) (Marker.scene m) = Some sc) ->
      fst (indexMarkers actorPrefix ofNull cfg db markers engine) = Ok (List.length markers)).
Proof.
  split; [|split].
  - intros n engine'. unfold indexMarkers.
    destruct (indexMarkers_loop actorPrefix ofNull cfg db markers [] 0 engine)
      as [[[r k]|e] eng] eqn:E; [|discriminate].
    apply indexMarkers_loop_count in E. simpl in E.
    destruct r as [|d r]; simpl in *; intros H; inversion H; subst; lia.
  - intros docs Hb. split; [now apply indexMarkers_built|].
    rewrite flushes_total. symmetry. induction Hb; simpl; congruence.
  - intros Hsc. destruct (built_exists actorPrefix ofNull db markers Hsc) as [docs Hb].
    now rewrite (indexMarkers_built actorPrefix ofNull cfg db markers docs engine Hb).
Qed.

Lemma indexMarkers_count_witness :
  fst (indexMarkers "ac_" emptyForNull (Some 2%Z) sampleStore
                    [sampleMarker; sampleMarker; sampleMarker] [])
  = Ok 3.
Proof.
  destruct (indexMarkers_count "ac_" emptyForNull (Some 2%Z) sampleStore
                               [sampleMarker; sampleMarker; sampleMarker] [])
    as (_ & _ & Hret).
  apply Hret. intros m Hm. exists (Scene.mk "sc_1" "first scene" (Some "/videos/a.mp4")).
  simpl in Hm. destruct Hm as [<-|[<-|[<-|[]]]]; reflexivity.
Defined.

(** ** [searchMarkers] *)

(** C4, as the specification has it, fails: with the sort key "foo" the
    translator raises nothing; it sends the engine a search whose sort
    specification names "foo" and has no sort type. *)
Lemma unknown_sort_key_is_searched :
  IMarkerSearchQuery.sortBy (sortedBy "foo" (Some "asc")) = Some "foo"
  /\ "foo" <> "$shuffle"
  /\ ~ In "foo" recognizedSortKeys
  /\ searchMarkers 24%Z countingEngine (sortedBy "foo" (Some "asc")) None []
     = (Ok 0,
        [SearchCall
           {| Gianna.query := Some "beach";
              Gianna.sort := Some {| Gianna.sort_by := "foo";
                                     Gianna.sort_asc := true;
                                     Gianna.sort_type := Gianna.Undefined |};
              Gianna.filter := Gianna.Grouping Gianna.AND [];
              Gianna.skip := 0;
              Gianna.take := 24 |}])
  /\ searchMarkers 24%Z countingEngine (sortedBy "foo" (Some "asc")) None []
     <> (Throw (InvalidSortKey "foo"), []).
Proof.
  repeat split; try discriminate.
  simpl. intuition discriminate.
Qed.

(** C4, amended.  A sort key that is set, not empty and not the shuffle
    marker never makes the translator fail: the engine is sent one search,
    whose sort specification carries the key as it came, ascending exactly
    when the direction is "asc", with the sort type looked up for the key;
    for a key outside the recognized ones that sort type is no type tag. *)
Theorem unknown_sort_key_passed_through
        (DEFAULT_PAGE_SIZE : Z) (ISearchResults : Type)
        (engineSearch : Engine -> Gianna.ISearchRequest -> ISearchResults)
        (options : IMarkerSearchQuery.t) (shuffleSeed : option string)
        (engine : Engine) (key : string) :
  IMarkerSearchQuery.sortBy options = Some key ->
  key <> "" -> key <> "$shuffle" ->
  exists request,
    searchMarkers DEFAULT_PAGE_SIZE engineSearch options shuffleSeed engine
    = (Ok (engineSearch engine request), engine ++ [SearchCall request])
    /\ Gianna.sort request
       = Some {| Gianna.sort_by := key;
                 Gianna.sort_asc :=
                   match IMarkerSearchQuery.sortDir options with
                   | Some d => String.eqb d "asc"
                   | None => false
                   end;
                 Gianna.sort_type := sortTypeOf key |}
    /\ (~ In key recognizedSortKeys -> isTag (sortTypeOf key) = false).
Proof.
  intros Hk Hne Hns.
  eexists. split; [reflexivity|]. split.
  - simpl. now apply sortOf_field.
  - apply sortTypeOf_unrecognized.
Qed.

Lemma unknown_sort_key_passed_through_witness :
  exists request,
    searchMarkers 24%Z countingEngine (sortedBy "toString" None) (Some "s1") []
    = (Ok 0, [SearchCall request])
    /\ Gianna.sort request
       = Some {| Gianna.sort_by := "toString";
                 Gianna.sort_asc := false;
                 Gianna.sort_type := Gianna.Inherited "toString" |}.
Proof.
  destruct (unknown_sort_key_passed_through
              24%Z nat countingEngine (sortedBy "toString" None) (Some "s1") []
              "toString" eq_refl)
    as (request & Hcall & Hsort & _); [discriminate | discriminate |].
  exists request. split; [exact Hcall | exact Hsort].
Defined.

(** C6.  [buildPagination]: a page alone gives [skip = page * size] and
    [take = size] for the default page size; explicit [skip] and [take]
    are used as given whatever the page; with nothing given the result is
    [skip = 0] and the default page size; page 2 alone is the same as the
    explicit [skip = 2 * size, take = size]; and [searchMarkers] sends the
    engine exactly this pair. *)
Theorem buildPagination_normalizes (size : Z) :
  (forall p, buildPagination size None None (Some p)
             = {| pg_skip := p * size; pg_take := size |})
  /\ (forall sk tk page, buildPagination size (Some tk) (Some sk) page
                         = {| pg_skip := sk; pg_take := tk |})
  /\ buildPagination size None None None = {| pg_skip := 0; pg_take := size |}
  /\ buildPagination size None None (Some 2%Z)
     = buildPagination size (Some size) (Some (2 * size)%Z) None
  /\ (forall options seed,
         let p := buildPagination size (IMarkerSearchQuery.take options)
                    (IMarkerSearchQuery.skip options)
                    (IMarkerSearchQuery.page options) in
         Gianna.skip (searchRequest size options seed) = pg_skip p
         /\ Gianna.take (searchRequest size options seed) = pg_take p).
Proof. repeat split. Qed.

(** C7.  The filter of every search is an AND grouping whose children are
    the predicates of the filters the query carries, one per filter, in the
    translator's order, and nothing else: as many children as filters are
    present, and none at all for a query without filters. *)
Theorem filter_tree_root (options : IMarkerSearchQuery.t) :
  filterOf options
  = Gianna.Grouping Gianna.AND (map Gianna.Leaf (activeFilters options))
  /\ List.length (activeFilters options)
     = present (IMarkerSearchQuery.favorite options)
       + present (IMarkerSearchQuery.bookmark options)
       + present (IMarkerSearchQuery.rating options)
       + present (IMarkerSearchQuery.include options)
       + present (IMarkerSearchQuery.exclude options)
  /\ (IMarkerSearchQuery.favorite options = None ->
      IMarkerSearchQuery.bookmark options = None ->
      IMarkerSearchQuery.rating options = None ->
      IMarkerSearchQuery.include options = None ->
      IMarkerSearchQuery.exclude options = None ->
      filterOf options = Gianna.Grouping Gianna.AND [])
  /\ (forall size seed,
         Gianna.filter (searchRequest size options seed) = filterOf options).
Proof.
  assert (Hrequest : forall size seed,
             Gianna.filter (searchRequest size options seed) = filterOf options)
    by reflexivity.
  revert Hrequest.
  unfold filterOf, activeFilters, filterFavorites, filterBookmark, filterRating,
         filterInclude, filterExclude.
  destruct (IMarkerSearchQuery.favorite options),
           (IMarkerSearchQuery.bookmark options),
           (IMarkerSearchQuery.rating options),
           (IMarkerSearchQuery.include options),
           (IMarkerSearchQuery.exclude options);
    intros Hrequest;
    (split; [reflexivity | split; [reflexivity | split; [|exact Hrequest]]]);
    intros; try reflexivity; discriminate.
Qed.

Lemma filter_tree_root_witness :
  filterOf emptyQuery = Gianna.Grouping Gianna.AND [].
Proof.
  destruct (filter_tree_root emptyQuery) as (_ & _ & Hnone & _).
  apply Hnone; reflexivity.
Defined.

(** * Further properties *)

(** ** [setLabels] and [getLabels] together *)

Lemma newReferences_ids (gen : nat -> string) (source : string) (ids : list string) :
  forall k,
    map CrossReference._id (newReferences gen source k ids)
    = map gen (seq k (List.length ids)).
Proof. induction ids as [|id ids IH]; intros k; simpl; [reflexivity|]. now rewrite IH. Qed.

Lemma newReferences_from (gen : nat -> string) (source : string) (ids : list string) :
  forall k r, In r (newReferences gen source k ids) -> CrossReference.from r = source.
Proof.
  induction ids as [|id ids IH]; intros k r; simpl; [contradiction|].
  intros [<-|H]; [reflexivity | now apply (IH (S k))].
Qed.

Lemma newReferences_label_targets (gen : nat -> string) (m : Marker.t) (ids : list string) :
  forall k,
    map CrossReference.to
        (filter (isMarkerLabelEdge m) (newReferences gen (Marker._id m) k ids))
    = filter isLabelId ids.
Proof.
  induction ids as [|id ids IH]; intros k; simpl; [reflexivity|].
  unfold isMarkerLabelEdge at 1, isLabelRef at 1. simpl.
  rewrite String.eqb_refl. simpl. fold (isLabelId id).
  destruct (isLabelId id); simpl; now rewrite IH.
Qed.

Lemma getLabels_labelEdges (db : Store) (m : Marker.t) :
  Marker_getLabels db m
  = filter_Boolean
      (map (fun r => Label.getById (labels db) (CrossReference.to r)) (labelEdges db m)).
Proof. reflexivity. Qed.

Lemma getById_exists (ls : list Label.t) (id : string) :
  Label.getById ls id = None
  <-> existsb (fun l => String.eqb (Label._id l) id) ls = false.
Proof.
  unfold Label.getById, database.findOne.
  induction ls as [|l ls IH]; simpl; [tauto|].
  destruct (String.eqb (Label._id l) id); simpl; [split; discriminate | exact IH].
Qed.

Lemma resolved_ids (ls : list Label.t) (targets : list string) :
  map Label._id (filter_Boolean (map (Label.getById ls) targets))
  = filter (fun id => existsb (fun l => String.eqb (Label._id l) id) ls) targets.
Proof.
  induction targets as [|id targets IH]; simpl; [reflexivity|].
  destruct (Label.getById ls id) as [l|] eqn:Hl.
  - assert (Hex : existsb (fun l => String.eqb (Label._id l) id) ls = true).
    { destruct (existsb _ ls) eqn:E; [reflexivity|].
      apply getById_exists in E. congruence. }
    rewrite Hex. simpl. rewrite IH. f_equal. now apply getById_id in Hl.
  - apply getById_exists in Hl. now rewrite Hl.
Qed.

Lemma labelEdges_after_setLabels (gen : nat -> string) (db : Store) (m : Marker.t)
      (labelIds : list string) :
  labelEdges (Marker_setLabels gen db m labelIds) m
  = filter (isMarkerLabelEdge m)
           (newReferences gen (Marker._id m) 0 (Set_of labelIds)).
Proof.
  rewrite labelEdges_filter, setLabels_crossReferences, filter_app.
  now rewrite old_label_edges_removed.
Qed.

(** X1.  Reading back what was written: after [setLabels], the labels
    [getLabels] returns are those of the ids that were given, start with
    the label prefix and have a label document, and no others, whatever the
    marker's labels were before; no label comes back twice; and for a
    duplicate-free list of ids of existing labels the ids of the labels
    returned are the ids given, up to their order. *)
Theorem getLabels_after_setLabels
        (gen : nat -> string) (db : Store) (m : Marker.t) (labelIds : list string) :
  let returned :=
    map Label._id (Marker_getLabels (Marker_setLabels gen db m labelIds) m) in
  (forall id, In id returned <->
              In id labelIds /\ isLabelId id = true /\ labelExists db id = true)
  /\ NoDup returned
  /\ (NoDup labelIds ->
      Forall (fun id => isLabelId id = true /\ labelExists db id = true) labelIds ->
      Permutation returned labelIds).
Proof.
  intros returned.
  assert (Hmain : returned
                  = filter (fun id => isLabelId id && labelExists db id)
                           (Set_of labelIds)).
  { unfold returned. rewrite getLabels_labelEdges, labelEdges_after_setLabels.
    rewrite <- (map_map CrossReference.to (Label.getById _)).
    rewrite newReferences_label_targets, resolved_ids.
    rewrite filter_filter_andb. reflexivity. }
  assert (Hin : forall id, In id returned <->
                  In id labelIds /\ isLabelId id = true /\ labelExists db id = true).
  { intros id. rewrite Hmain, filter_In, Set_of_In, andb_true_iff. tauto. }
  assert (Hnd : NoDup returned)
    by (rewrite Hmain; apply NoDup_filter, Set_of_NoDup).
  split; [exact Hin|]. split; [exact Hnd|].
  intros Hids Hall. apply NoDup_Permutation; [assumption | assumption |].
  intros id. rewrite Hin. rewrite Forall_forall in Hall.
  split; [tauto|]. intros Hid. destruct (Hall id Hid). tauto.
Qed.

Lemma getLabels_after_setLabels_witness :
  Permutation
    (map Label._id
         (Marker_getLabels
            (Marker_setLabels sampleHash sampleStore sampleMarker ["la_two"; "la_old"])
            sampleMarker))
    ["la_two"; "la_old"].
Proof.
  destruct (getLabels_after_setLabels sampleHash sampleStore sampleMarker
                                      ["la_two"; "la_old"]) as (_ & _ & Hsame).
  apply Hsame.
  - repeat constructor; simpl; intuition discriminate.
  - repeat constructor.
Defined.

(** ** What [setLabels] leaves alone, and what it leaves behind *)

Lemma filter_through {A : Type} (f g : A -> bool) (l : list A) :
  (forall x, f x = true -> g x = true) ->
  filter f (filter g l) = filter f l.
Proof.
  intros Himp. rewrite filter_filter_andb. apply filter_ext. intros x.
  destruct (f x) eqn:Hf; [now rewrite (Himp x Hf) | now rewrite andb_false_r].
Qed.

Lemma ids_unique_in_selection (keep : CrossReference.t -> bool)
      (crs : list CrossReference.t) :
  NoDup (map CrossReference._id crs) ->
  NoDup (map CrossReference._id (filter keep crs)).
Proof.
  induction crs as [|r crs IH]; simpl; intros Hcrs; [constructor|].
  apply NoDup_cons_iff in Hcrs. destruct Hcrs as [Hfresh Hrest].
  destruct (keep r); simpl; [|now apply IH].
  apply NoDup_cons; [|now apply IH].
  intros Hin. apply Hfresh. apply in_map_iff in Hin.
  destruct Hin as [r' [Hid Hr']]. apply filter_In in Hr'.
  rewrite <- Hid. apply in_map. tauto.
Qed.

Lemma kept_through (db : Store) (m : Marker.t) (f : CrossReference.t -> bool) :
  NoDup (map CrossReference._id (crossReferences db)) ->
  (forall r, f r = true -> isMarkerLabelEdge m r = false) ->
  filter f
    (filter (fun r => negb (hasIdIn (map CrossReference._id (labelEdges db m)) r))
            (crossReferences db))
  = filter f (crossReferences db).
Proof.
  intros Hnd Himp.
  assert (Hother : forall r, f r = true -> negb (isMarkerLabelEdge m r) = true)
    by (intros r Hr; now rewrite (Himp r Hr)).
  rewrite <- (filter_through f (fun r => negb (isMarkerLabelEdge m r)) _ Hother).
  rewrite other_edges_kept by assumption.
  now apply filter_through.
Qed.

Lemma getBySource_after_setLabels (gen : nat -> string) (db : Store) (m : Marker.t)
      (labelIds : list string) (source : string) :
  NoDup (map CrossReference._id (crossReferences db)) ->
  source <> Marker._id m ->
  CrossReference.getBySource (crossReferences (Marker_setLabels gen db m labelIds)) source
  = CrossReference.getBySource (crossReferences db) source.
Proof.
  intros Hnd Hsrc. unfold CrossReference.getBySource, database.find.
  rewrite setLabels_crossReferences, filter_app.
  rewrite kept_through; [|assumption|].
  - rewrite (filter_none (fun r => String.eqb (CrossReference.from r) source)
                          (newReferences gen (Marker._id m) 0 (Set_of labelIds)));
      [now rewrite app_nil_r|].
    intros r Hr. apply newReferences_from in Hr. rewrite Hr.
    apply String.eqb_neq. congruence.
  - intros r Hr. apply String.eqb_eq in Hr. unfold isMarkerLabelEdge.
    replace (String.eqb (CrossReference.from r) (Marker._id m)) with false;
      [reflexivity|].
    symmetry. apply String.eqb_neq. congruence.
Qed.

Lemma Scene_getById_id (ss : list Scene.t) (id : string) (sc : Scene.t) :
  Scene.getById ss id = Some sc -> Scene._id sc = id.
Proof.
  unfold Scene.getById, database.findOne. intros H.
  apply find_some in H. now apply String.eqb_eq.
Qed.

(** X2.  Re-labelling one marker is invisible from everywhere else.  In a
    store with unique document ids, after [setLabels] on a marker the edges
    read for any other source are the edges read before, so another
    marker's labels are unchanged, and so is the search document (or the
    failure) of every other marker whose scene does not carry the id of the
    re-labelled marker. *)
Theorem setLabels_invisible_elsewhere
        (gen : nat -> string) (actorPrefix : string)
        (ofNull : result (list Actor.t)) (db : Store)
        (m other : Marker.t) (labelIds : list string) :
  NoDup (map CrossReference._id (crossReferences db)) ->
  Marker._id other <> Marker._id m ->
  let db' := Marker_setLabels gen db m labelIds in
  (forall source, source <> Marker._id m ->
                  CrossReference.getBySource (crossReferences db') source
                  = CrossReference.getBySource (crossReferences db) source)
  /\ Marker_getLabels db' other = Marker_getLabels db other
  /\ (Marker.scene other <> Marker._id m ->
      createMarkerSearchDoc actorPrefix ofNull db' other
      = createMarkerSearchDoc actorPrefix ofNull db other).
Proof.
  intros Hnd Hneq db'.
  assert (Hsrc : forall source, source <> Marker._id m ->
                   CrossReference.getBySource (crossReferences db') source
                   = CrossReference.getBySource (crossReferences db) source)
    by (intros; now apply getBySource_after_setLabels).
  assert (Hlabels : Marker_getLabels db' other = Marker_getLabels db other).
  { unfold Marker_getLabels. now rewrite Hsrc. }
  split; [exact Hsrc|]. split; [exact Hlabels|].
  intros Hscene. unfold createMarkerSearchDoc. rewrite Hlabels.
  change (scenes db') with (scenes db).
  destruct (Scene.getById (scenes db) (Marker.scene other)) as [sc|] eqn:Hsc;
    [|reflexivity].
  apply Scene_getById_id in Hsc.
  unfold Scene_getActors. rewrite Hsrc by congruence. reflexivity.
Qed.

Lemma setLabels_invisible_elsewhere_witness :
  createMarkerSearchDoc "ac_" emptyForNull
    (Marker_setLabels sampleHash sampleStore sampleMarker ["la_a"; "la_two"])
    secondMarker
  = createMarkerSearchDoc "ac_" emptyForNull sampleStore secondMarker.
Proof.
  assert (Hnd : NoDup (map CrossReference._id (crossReferences sampleStore))).
  { simpl. repeat constructor; simpl; intuition discriminate. }
  destruct (setLabels_invisible_elsewhere sampleHash "ac_" emptyForNull sampleStore
              sampleMarker secondMarker ["la_a"; "la_two"] Hnd)
    as (_ & _ & Hdoc); [discriminate|].
  apply Hdoc. discriminate.
Defined.

(** X3.  [setLabels] keeps document ids unique when the hashes it draws
    are distinct from one another and from the ids already in the store. *)
Theorem setLabels_keeps_ids_unique
        (gen : nat -> string) (db : Store) (m : Marker.t) (labelIds : list string) :
  NoDup (map CrossReference._id (crossReferences db)) ->
  NoDup (map gen (seq 0 (List.length (Set_of labelIds)))) ->
  (forall k, k < List.length (Set_of labelIds) ->
             ~ In (gen k) (map CrossReference._id (crossReferences db))) ->
  NoDup (map CrossReference._id
             (crossReferences (Marker_setLabels gen db m labelIds))).
Proof.
  intros Hnd Hgen Hfresh.
  rewrite setLabels_crossReferences, map_app, newReferences_ids.
  apply NoDup_app; [now apply ids_unique_in_selection | assumption |].
  intros a Ha Hnew. apply in_map_iff in Hnew. destruct Hnew as [k [<- Hk]].
  apply in_seq in Hk. apply (Hfresh k); [lia|].
  apply in_map_iff in Ha. destruct Ha as [r [Hr Hin]].
  apply filter_In in Hin. rewrite <- Hr. apply in_map. tauto.
Qed.

Lemma setLabels_keeps_ids_unique_witness :
  NoDup (map CrossReference._id
             (crossReferences
                (Marker_setLabels sampleHash sampleStore sampleMarker
                                  ["la_a"; "la_a"; "la_b"]))).
Proof.
  apply setLabels_keeps_ids_unique.
  - simpl. repeat constructor; simpl; intuition discriminate.
  - simpl. repeat constructor; simpl; intuition discriminate.
  - intros k Hk. simpl in Hk.
    destruct k as [|[|k]]; [| |exfalso; vm_compute in Hk; lia];
      simpl; intuition discriminate.
Defined.

Lemma newReferences_joins (gen : nat -> string) (source target : string)
      (ids : list string) :
  forall k,
    List.length (filter (joins source target) (newReferences gen source k ids))
    = count_occ string_dec ids target.
Proof.
  induction ids as [|id ids IH]; intros k; simpl; [reflexivity|].
  unfold joins at 1. simpl. rewrite String.eqb_refl. simpl.
  destruct (string_dec id target) as [->|Hne].
  - rewrite String.eqb_refl. simpl. now rewrite IH.
  - apply String.eqb_neq in Hne. rewrite Hne. apply IH.
Qed.

(** X4.  An id that does not start with the label prefix is stored but
    never cleaned up: in a store with unique document ids, [setLabels] with
    such an id in its list adds one more edge from the marker to that id on
    every call, next to the ones already there, and without it in its list
    leaves their number as it is. *)
Theorem setLabels_non_label_id_accumulates
        (gen : nat -> string) (db : Store) (m : Marker.t)
        (labelIds : list string) (id : string) :
  NoDup (map CrossReference._id (crossReferences db)) ->
  isLabelId id = false ->
  let edgesTo := fun d =>
    List.length (filter (joins (Marker._id m) id) (crossReferences d)) in
  (In id labelIds ->
   edgesTo (Marker_setLabels gen db m labelIds) = S (edgesTo db))
  /\ (~ In id labelIds ->
      edgesTo (Marker_setLabels gen db m labelIds) = edgesTo db).
Proof.
  intros Hnd Hid edgesTo.
  assert (Hlen : edgesTo (Marker_setLabels gen db m labelIds)
                 = edgesTo db + count_occ string_dec (Set_of labelIds) id).
  { unfold edgesTo. rewrite setLabels_crossReferences, filter_app, length_app.
    rewrite newReferences_joins. f_equal. f_equal.
    apply kept_through; [assumption|].
    intros r Hr. unfold joins in Hr. apply andb_true_iff in Hr.
    destruct Hr as [_ Hto]. apply String.eqb_eq in Hto.
    unfold isMarkerLabelEdge, isLabelRef. rewrite Hto.
    fold (isLabelId id). rewrite Hid. apply andb_false_r. }
  split; intros Hin; rewrite Hlen.
  - assert (Hone : count_occ string_dec (Set_of labelIds) id = 1).
    { apply NoDup_count_occ'; [apply Set_of_NoDup | now apply Set_of_In]. }
    lia.
  - assert (Hzero : count_occ string_dec (Set_of labelIds) id = 0).
    { apply count_occ_not_In. now rewrite Set_of_In. }
    lia.
Qed.

Lemma setLabels_non_label_id_accumulates_witness :
  List.length
    (filter (joins "mk_1" "ac_1")
            (crossReferences
               (Marker_setLabels sampleHash sampleStore sampleMarker ["ac_1"; "la_two"])))
  = 2.
Proof.
  assert (Hnd : NoDup (map CrossReference._id (crossReferences sampleStore))).
  { simpl. repeat constructor; simpl; intuition discriminate. }
  destruct (setLabels_non_label_id_accumulates sampleHash sampleStore sampleMarker
              ["ac_1"; "la_two"] "ac_1" Hnd eq_refl) as [Hin _].
  exact (Hin (or_introl eq_refl)).
Defined.

(** ** What a search document can contain *)

Lemma Actor_getById_id (acs : list Actor.t) (id : string) (a : Actor.t) :
  Actor.getById acs id = Some a -> Actor._id a = id.
Proof.
  unfold Actor.getById, database.findOne. intros H.
  apply find_some in H. now apply String.eqb_eq.
Qed.

Lemma Actor_getById_exists (acs : list Actor.t) (id : string) :
  Actor.getById acs id = None
  <-> existsb (fun a => String.eqb (Actor._id a) id) acs = false.
Proof.
  unfold Actor.getById, database.findOne.
  induction acs as [|a acs IH]; simpl; [tauto|].
  destruct (String.eqb (Actor._id a) id); simpl; [split; discriminate | exact IH].
Qed.

Lemma resolved_actor_ids (acs : list Actor.t) (targets : list string) :
  map Actor._id (filter_Boolean (map (Actor.getById acs) targets))
  = filter (fun id => existsb (fun a => String.eqb (Actor._id a) id) acs) targets.
Proof.
  induction targets as [|id targets IH]; simpl; [reflexivity|].
  destruct (Actor.getById acs id) as [a|] eqn:Ha.
  - assert (Hex : existsb (fun a => String.eqb (Actor._id a) id) acs = true).
    { destruct (existsb _ acs) eqn:E; [reflexivity|].
      apply Actor_getById_exists in E. congruence. }
    rewrite Hex. simpl. rewrite IH. f_equal. now apply Actor_getById_id in Ha.
  - apply Actor_getById_exists in Ha. now rewrite Ha.
Qed.

(** X5.  A search document only names what exists.  When
    [createMarkerSearchDoc] returns a document, the document carries the
    marker's own id, and as scene id the marker's scene id when that scene
    exists and the empty string when it does not; every id in [labels]
    starts with the label prefix, belongs to a label document of the store
    and is the target of an edge from the marker; and when the scene exists
    every id in [actors] starts with the actor prefix, belongs to an actor
    document and is the target of an edge from the marker's scene. *)
Theorem search_doc_references_resolve
        (actorPrefix : string) (ofNull : result (list Actor.t))
        (db : Store) (m : Marker.t) (doc : IMarkerSearchDoc.t) :
  createMarkerSearchDoc actorPrefix ofNull db m = Ok doc ->
  IMarkerSearchDoc._id doc = Marker._id m
  /\ IMarkerSearchDoc.scene doc
     = match Scene.getById (scenes db) (Marker.scene m) with
       | Some _ => Marker.scene m
       | None => ""
       end
  /\ (forall id, In id (IMarkerSearchDoc.labels doc) ->
        isLabelId id = true /\ labelExists db id = true
        /\ exists r, In r (crossReferences db)
                     /\ CrossReference.from r = Marker._id m
                     /\ CrossReference.to r = id)
  /\ (forall sc, Scene.getById (scenes db) (Marker.scene m) = Some sc ->
      forall id, In id (IMarkerSearchDoc.actors doc) ->
        String.prefix actorPrefix id = true /\ actorExists db id = true
        /\ exists r, In r (crossReferences db)
                     /\ CrossReference.from r = Marker.scene m
                     /\ CrossReference.to r = id).
Proof.
  intros Hdoc.
  assert (Hlabels : forall id, In id (map Label._id (Marker_getLabels db m)) ->
            isLabelId id = true /\ labelExists db id = true
            /\ exists r, In r (crossReferences db)
                         /\ CrossReference.from r = Marker._id m
                         /\ CrossReference.to r = id).
  { intros id Hid. unfold Marker_getLabels in Hid.
    rewrite <- (map_map CrossReference.to (Label.getById _)) in Hid.
    rewrite resolved_ids in Hid. apply filter_In in Hid. destruct Hid as [Hid Hex].
    apply in_map_iff in Hid. destruct Hid as [r [Hto Hr]].
    apply filter_In in Hr. destruct Hr as [Hr Hlab].
    unfold CrossReference.getBySource, database.find in Hr.
    apply filter_In in Hr. destruct Hr as [Hin Hfrom]. apply String.eqb_eq in Hfrom.
    unfold isLabelRef in Hlab. rewrite Hto in Hlab.
    repeat split; try assumption. now exists r. }
  unfold createMarkerSearchDoc in Hdoc.
  destruct (Scene.getById (scenes db) (Marker.scene m)) as [sc|] eqn:Hsc.
  - apply Scene_getById_id in Hsc. simpl in Hdoc.
    inversion Hdoc; subst doc; clear Hdoc. simpl.
    split; [reflexivity|]. split; [assumption|]. split; [exact Hlabels|].
    intros sc' _ id Hid.
    rewrite <- (map_map CrossReference.to (Actor.getById _)) in Hid.
    rewrite resolved_actor_ids in Hid. apply filter_In in Hid. destruct Hid as [Hid Hex].
    apply in_map_iff in Hid. destruct Hid as [r [Hto Hr]].
    apply filter_In in Hr. destruct Hr as [Hr Hpre].
    unfold CrossReference.getBySource, database.find in Hr.
    apply filter_In in Hr. destruct Hr as [Hin Hfrom]. apply String.eqb_eq in Hfrom.
    rewrite Hto in Hpre. repeat split; try assumption.
    exists r. repeat split; try assumption. congruence.
  - simpl in Hdoc. destruct ofNull as [acs|e]; simpl in Hdoc; [|discriminate].
    inversion Hdoc; subst doc; clear Hdoc. simpl.
    split; [reflexivity|]. split; [reflexivity|]. split; [exact Hlabels|].
    intros sc' Hsc'. discriminate.
Qed.

Lemma search_doc_references_resolve_witness :
  IMarkerSearchDoc.scene sampleDoc = "sc_1"
  /\ labelExists sampleStore "la_two" = true
  /\ actorExists sampleStore "ac_1" = true.
Proof.
  destruct (search_doc_references_resolve "ac_" emptyForNull sampleStore sampleMarker
                                          sampleDoc eq_refl)
    as (_ & Hscene & Hlabels & Hactors).
  split; [exact Hscene|]. split.
  - apply (Hlabels "la_two"). simpl. tauto.
  - apply (Hactors (Scene.mk "sc_1" "first scene" (Some "/videos/a.mp4")) eq_refl "ac_1").
    simpl. tauto.
Defined.

(** ** A bulk build that fails, and the number of its flushes *)

Lemma indexMarkers_loop_fails
      (actorPrefix : string) (ofNull : result (list Actor.t)) (cfg : option Z) (db : Store)
      (good : list Marker.t) (docs : list IMarkerSearchDoc.t)
      (bad : Marker.t) (rest : list Marker.t) (e : Exn) :
  built actorPrefix ofNull db good docs ->
  createMarkerSearchDoc actorPrefix ofNull db bad = Throw e ->
  forall acc n engine,
    indexMarkers_loop actorPrefix ofNull cfg db (good ++ bad :: rest) acc n engine
    = (Throw e, engine ++ map IndexCall (fst (batches (sliceSize cfg) docs acc))).
Proof.
  intros Hb Hbad. induction Hb as [|m d good docs Hd _ IH]; intros acc n engine; simpl.
  - rewrite Hbad. now rewrite app_nil_r.
  - rewrite Hd.
    destruct (Z.of_nat (List.length (acc ++ [d])) =? sliceSize cfg)%Z.
    + rewrite IH. destruct (batches (sliceSize cfg) docs []) as [fl r].
      unfold addMarkerSearchDocs. simpl. now rewrite <- app_assoc.
    + apply IH.
Qed.

(** X7.  A bulk build that meets a marker it cannot build a document for
    stops there: it is rejected with that marker's error and reports no
    count; the engine has received the full batches of the documents built
    before the failure, each of exactly the slice size, and nothing else;
    the documents built after the last full batch are dropped without a
    flush. *)
Theorem indexMarkers_fails_midway
        (actorPrefix : string) (ofNull : result (list Actor.t)) (cfg : option Z) (db : Store)
        (good : list Marker.t) (docs : list IMarkerSearchDoc.t)
        (bad : Marker.t) (rest : list Marker.t) (e : Exn) (engine : Engine) :
  built actorPrefix ofNull db good docs ->
  createMarkerSearchDoc actorPrefix ofNull db bad = Throw e ->
  exists sent dropped,
    indexMarkers actorPrefix ofNull cfg db (good ++ bad :: rest) engine
    = (Throw e, engine ++ map IndexCall sent)
    /\ List.concat sent ++ dropped = docs
    /\ Forall (fun b => Z.of_nat (List.length b) = sliceSize cfg) sent
    /\ ((0 < sliceSize cfg)%Z -> (Z.of_nat (List.length dropped) < sliceSize cfg)%Z).
Proof.
  intros Hb Hbad.
  destruct (batches (sliceSize cfg) docs []) as [fl r] eqn:E.
  exists fl, r. split; [|split; [|split]].
  - unfold indexMarkers.
    rewrite (indexMarkers_loop_fails actorPrefix ofNull cfg db good docs bad rest e Hb Hbad).
    now rewrite E.
  - now apply (batches_concat (sliceSize cfg) docs [] fl r).
  - now apply (batches_full (sliceSize cfg) docs [] fl r).
  - intros Hpos. now apply (batches_pending (sliceSize cfg) docs [] fl r).
Qed.

Lemma indexMarkers_fails_midway_witness :
  exists sent dropped,
    indexMarkers "ac_" rejectingNull (Some 2%Z) sampleStore
                 [sampleMarker; sampleMarker; sampleMarker; orphanMarker; sampleMarker] []
    = (Throw (TypeError "scene is null"), map IndexCall sent)
    /\ List.concat sent ++ dropped = [sampleDoc; sampleDoc; sampleDoc]
    /\ (Z.of_nat (List.length dropped) < 2)%Z.
Proof.
  assert (Hb : built "ac_" rejectingNull sampleStore [sampleMarker; sampleMarker; sampleMarker]
                     [sampleDoc; sampleDoc; sampleDoc])
    by (repeat constructor).
  destruct (indexMarkers_fails_midway
              "ac_" rejectingNull (Some 2%Z) sampleStore
              [sampleMarker; sampleMarker; sampleMarker]
              [sampleDoc; sampleDoc; sampleDoc]
              orphanMarker [sampleMarker]
              (TypeError "scene is null") [] Hb eq_refl)
    as (sent & dropped & Hrun & Hall & _ & Hshort).
  exists sent, dropped. split; [exact Hrun|]. split; [exact Hall|].
  apply Hshort. reflexivity.
Defined.

Lemma built_length (actorPrefix : string) (ofNull : result (list Actor.t)) (db : Store)
      (markers : list Marker.t) (docs : list IMarkerSearchDoc.t) :
  built actorPrefix ofNull db markers docs -> List.length markers = List.length docs.
Proof. induction 1; simpl; congruence. Qed.

Lemma full_batches_length (s : Z) (fl : list (list IMarkerSearchDoc.t)) :
  Forall (fun b => Z.of_nat (List.length b) = s) fl ->
  Z.of_nat (List.length (List.concat fl)) = (s * Z.of_nat (List.length fl))%Z.
Proof.
  induction 1 as [|b fl Hb _ IH]; simpl; [lia|].
  rewrite length_app. lia.
Qed.

Lemma batches_div_mod (s : Z) (ds : list IMarkerSearchDoc.t)
      (fl : list (list IMarkerSearchDoc.t)) (r : list IMarkerSearchDoc.t) :
  (0 < s)%Z ->
  batches s ds [] = (fl, r) ->
  Z.of_nat (List.length ds)
  = (s * Z.of_nat (List.length fl) + Z.of_nat (List.length r))%Z
  /\ (Z.of_nat (List.length r) < s)%Z.
Proof.
  intros Hs E.
  pose proof (batches_concat s ds [] fl r E) as Hc.
  pose proof (batches_full s ds [] fl r E) as Hf.
  pose proof (batches_pending s ds [] fl r E) as Hp.
  simpl in Hc, Hp. split; [|apply Hp; lia].
  rewrite <- Hc, length_app, Nat2Z.inj_add.
  now rewrite (full_batches_length s fl Hf).
Qed.

Lemma flushes_count (s : Z) (ds : list IMarkerSearchDoc.t) :
  (0 < s)%Z ->
  Z.of_nat (List.length (flushes s ds))
  = ((Z.of_nat (List.length ds) + s - 1) / s)%Z.
Proof.
  intros Hs. unfold flushes.
  destruct (batches s ds []) as [fl r] eqn:E.
  destruct (batches_div_mod s ds fl r Hs E) as [Hlen Hr].
  destruct r as [|d r].
  - simpl in Hlen. apply (Z.div_unique _ s _ (s - 1)%Z); lia.
  - rewrite length_app. simpl List.length in *.
    apply (Z.div_unique _ s _ (Z.of_nat (S (List.length r)) - 1)%Z); lia.
Qed.

Lemma batches_never (s : Z) (ds : list IMarkerSearchDoc.t) :
  (s < 0)%Z -> forall acc, batches s ds acc = ([], acc ++ ds).
Proof.
  intros Hs. induction ds as [|d ds IH]; intros acc; simpl.
  - now rewrite app_nil_r.
  - destruct (Z.of_nat (List.length (acc ++ [d])) =? s)%Z eqn:E.
    + apply Z.eqb_eq in E. lia.
    + rewrite IH. now rewrite <- app_assoc.
Qed.

(** X8.  The number of flushes.  When every document can be built and the
    slice size is positive, a bulk build of [n] markers makes
    [ceil (n / size)] calls to the engine, all of them [index] calls; none
    at all for no markers, where it returns 0. *)
Theorem indexMarkers_flush_count
        (actorPrefix : string) (ofNull : result (list Actor.t)) (cfg : option Z) (db : Store)
        (markers : list Marker.t) (docs : list IMarkerSearchDoc.t) (engine : Engine) :
  built actorPrefix ofNull db markers docs ->
  (0 < sliceSize cfg)%Z ->
  (exists sent,
      snd (indexMarkers actorPrefix ofNull cfg db markers engine)
      = engine ++ map IndexCall sent
      /\ Z.of_nat (List.length sent)
         = ((Z.of_nat (List.length markers) + sliceSize cfg - 1) / sliceSize cfg)%Z)
  /\ (markers = [] ->
      indexMarkers actorPrefix ofNull cfg db markers engine = (Ok 0, engine)).
Proof.
  intros Hb Hs. split.
  - exists (flushes (sliceSize cfg) docs).
    rewrite (indexMarkers_built actorPrefix ofNull cfg db markers docs engine Hb).
    split; [reflexivity|].
    rewrite (built_length actorPrefix ofNull db markers docs Hb).
    now apply flushes_count.
  - intros ->. reflexivity.
Qed.

Lemma indexMarkers_flush_count_witness :
  exists sent,
    snd (indexMarkers "ac_" emptyForNull (Some 2%Z) sampleStore
                      [sampleMarker; sampleMarker; sampleMarker] [])
    = map IndexCall sent
    /\ Z.of_nat (List.length sent) = 2%Z.
Proof.
  assert (Hb : built "ac_" emptyForNull sampleStore [sampleMarker; sampleMarker; sampleMarker]
                     [sampleDoc; sampleDoc; sampleDoc])
    by (repeat constructor).
  destruct (indexMarkers_flush_count
              "ac_" emptyForNull (Some 2%Z) sampleStore
              [sampleMarker; sampleMarker; sampleMarker]
              [sampleDoc; sampleDoc; sampleDoc] [] Hb eq_refl)
    as [(sent & Hlog & Hcount) _].
  exists sent. split; [exact Hlog | exact Hcount].
Defined.

(** X9.  A negative slice size switches batching off: the length of the
    batch never equals it, so the loop never flushes and the whole build
    goes to the engine in one [index] call after the loop. *)
Theorem indexMarkers_negative_slice_size
        (actorPrefix : string) (ofNull : result (list Actor.t)) (cfg : option Z) (db : Store)
        (markers : list Marker.t) (docs : list IMarkerSearchDoc.t) (engine : Engine) :
  built actorPrefix ofNull db markers docs ->
  (sliceSize cfg < 0)%Z ->
  markers <> [] ->
  indexMarkers actorPrefix ofNull cfg db markers engine
  = (Ok (List.length markers), engine ++ [IndexCall docs]).
Proof.
  intros Hb Hs Hne.
  rewrite (indexMarkers_built actorPrefix ofNull cfg db markers docs engine Hb).
  unfold flushes. rewrite batches_never by assumption. simpl.
  destruct docs as [|d docs]; [|reflexivity].
  inversion Hb; subst. congruence.
Qed.

Lemma indexMarkers_negative_slice_size_witness :
  indexMarkers "ac_" emptyForNull (Some (-1)%Z) sampleStore
               [sampleMarker; sampleMarker; sampleMarker] []
  = (Ok 3, [IndexCall [sampleDoc; sampleDoc; sampleDoc]]).
Proof.
  apply (indexMarkers_negative_slice_size
           "ac_" emptyForNull (Some (-1)%Z) sampleStore
           [sampleMarker; sampleMarker; sampleMarker]
           [sampleDoc; sampleDoc; sampleDoc] []).
  - repeat constructor.
  - reflexivity.
  - discriminate.
Defined.

(** ** Bulk builds in pieces *)

Lemma flushes_app (s : Z) (ds1 ds2 : list IMarkerSearchDoc.t) :
  (0 < s)%Z ->
  (Z.of_nat (List.length ds1) mod s = 0)%Z ->
  flushes s (ds1 ++ ds2) = flushes s ds1 ++ flushes s ds2.
Proof.
  intros Hs Hmod. unfold flushes. rewrite batches_app.
  destruct (batches s ds1 []) as [fl1 r1] eqn:E1.
  destruct (batches_div_mod s ds1 fl1 r1 Hs E1) as [Hlen Hr].
  assert (Hzero : Z.of_nat (List.length r1) = 0%Z).
  { rewrite <- Hmod. apply (Z.mod_unique _ s (Z.of_nat (List.length fl1))); lia. }
  destruct r1 as [|d r1]; [|simpl in Hzero; lia].
  destruct (batches s ds2 []) as [fl2 r2].
  destruct r2; [reflexivity | now rewrite app_assoc].
Qed.

(** X10.  Bulk builds compose at batch boundaries.  When every document
    can be built, the slice size is positive and the number of the first
    markers is a multiple of it, indexing two lists of markers in one run
    sends the engine exactly the calls of indexing the first list and then
    the second, and returns the sum of the two counts. *)
Theorem indexMarkers_in_two_runs
        (actorPrefix : string) (ofNull : result (list Actor.t)) (cfg : option Z) (db : Store)
        (ms1 ms2 : list Marker.t) (ds1 ds2 : list IMarkerSearchDoc.t)
        (engine : Engine) :
  built actorPrefix ofNull db ms1 ds1 ->
  built actorPrefix ofNull db ms2 ds2 ->
  (0 < sliceSize cfg)%Z ->
  (Z.of_nat (List.length ms1) mod sliceSize cfg = 0)%Z ->
  indexMarkers actorPrefix ofNull cfg db (ms1 ++ ms2) engine
  = (Ok (List.length ms1 + List.length ms2),
     snd (indexMarkers actorPrefix ofNull cfg db ms2
            (snd (indexMarkers actorPrefix ofNull cfg db ms1 engine)))).
Proof.
  intros H1 H2 Hs Hmod.
  assert (H12 : built actorPrefix ofNull db (ms1 ++ ms2) (ds1 ++ ds2))
    by (now apply Forall2_app).
  rewrite (indexMarkers_built actorPrefix ofNull cfg db _ _ engine H12).
  rewrite (indexMarkers_built actorPrefix ofNull cfg db _ _ engine H1).
  rewrite (indexMarkers_built actorPrefix ofNull cfg db _ _ _ H2).
  simpl. rewrite length_app. f_equal.
  rewrite flushes_app; [now rewrite map_app, app_assoc | assumption |].
  now rewrite <- (built_length actorPrefix ofNull db ms1 ds1 H1).
Qed.

Lemma indexMarkers_in_two_runs_witness :
  indexMarkers "ac_" emptyForNull (Some 2%Z) sampleStore
               ([sampleMarker; sampleMarker] ++ [sampleMarker]) []
  = (Ok 3, [IndexCall [sampleDoc; sampleDoc]; IndexCall [sampleDoc]]).
Proof.
  rewrite (indexMarkers_in_two_runs
             "ac_" emptyForNull (Some 2%Z) sampleStore
             [sampleMarker; sampleMarker] [sampleMarker]
             [sampleDoc; sampleDoc] [sampleDoc] []).
  - reflexivity.
  - repeat constructor.
  - repeat constructor.
  - reflexivity.
  - reflexivity.
Defined.

(** ** [updateMarkers] *)

Lemma mapAsync_built (actorPrefix : string) (ofNull : result (list Actor.t)) (db : Store)
      (markers : list Marker.t) (docs : list IMarkerSearchDoc.t) :
  built actorPrefix ofNull db markers docs ->
  mapAsync markers (createMarkerSearchDoc actorPrefix ofNull db) = Ok docs.
Proof.
  induction 1 as [|m d markers docs Hd _ IH]; simpl; [reflexivity|].
  now rewrite Hd, IH.
Qed.

Lemma mapAsync_fails (actorPrefix : string) (ofNull : result (list Actor.t)) (db : Store)
      (good : list Marker.t) (docs : list IMarkerSearchDoc.t)
      (bad : Marker.t) (rest : list Marker.t) (e : Exn) :
  built actorPrefix ofNull db good docs ->
  createMarkerSearchDoc actorPrefix ofNull db bad = Throw e ->
  mapAsync (good ++ bad :: rest) (createMarkerSearchDoc actorPrefix ofNull db) = Throw e.
Proof.
  intros Hb Hbad. induction Hb as [|m d good docs Hd _ IH]; simpl.
  - now rewrite Hbad.
  - now rewrite Hd, IH.
Qed.

(** X11.  An incremental update is all or nothing.  When every document can
    be built, [updateMarkers] makes one [update] call with the documents of
    the markers in their order, also for no markers at all, where the call
    carries an empty list; when a marker's document cannot be built it is
    rejected with that marker's error and [update] is not called, so none
    of the documents that could be built reaches the engine. *)
Theorem updateMarkers_all_or_nothing
        (actorPrefix : string) (ofNull : result (list Actor.t)) (db : Store)
        (updates : list (list IMarkerSearchDoc.t)) :
  (forall markers docs,
      built actorPrefix ofNull db markers docs ->
      updateMarkers actorPrefix ofNull db markers updates = (Ok tt, updates ++ [docs]))
  /\ updateMarkers actorPrefix ofNull db [] updates = (Ok tt, updates ++ [[]])
  /\ (forall good docs bad rest e,
         built actorPrefix ofNull db good docs ->
         createMarkerSearchDoc actorPrefix ofNull db bad = Throw e ->
         updateMarkers actorPrefix ofNull db (good ++ bad :: rest) updates
         = (Throw e, updates)).
Proof.
  split; [|split].
  - intros markers docs Hb. unfold updateMarkers.
    now rewrite (mapAsync_built actorPrefix ofNull db markers docs Hb).
  - reflexivity.
  - intros good docs bad rest e Hb Hbad. unfold updateMarkers.
    now rewrite (mapAsync_fails actorPrefix ofNull db good docs bad rest e Hb Hbad).
Qed.

Lemma updateMarkers_all_or_nothing_witness :
  updateMarkers "ac_" rejectingNull sampleStore [sampleMarker; orphanMarker] []
  = (Throw (TypeError "scene is null"), [])
  /\ updateMarkers "ac_" rejectingNull sampleStore [sampleMarker; secondMarker] []
     = (Ok tt, [[sampleDoc; withLabels
                              {| IMarkerSearchDoc._id := "mk_3";
                                 IMarkerSearchDoc.addedOn := 1600000002;
                                 IMarkerSearchDoc.name := "middle";
                                 IMarkerSearchDoc.actors := ["ac_1"];
                                 IMarkerSearchDoc.actorNames := ["Ann"; "A."];
                                 IMarkerSearchDoc.labels := [];
                                 IMarkerSearchDoc.labelNames := [];
                                 IMarkerSearchDoc.rating := 4;
                                 IMarkerSearchDoc.bookmark := None;
                                 IMarkerSearchDoc.favorite := false;
                                 IMarkerSearchDoc.scene := "sc_1";
                                 IMarkerSearchDoc.sceneName := "first scene" |} []]]).
Proof.
  destruct (updateMarkers_all_or_nothing "ac_" rejectingNull sampleStore []) as (Hok & _ & Hfail).
  split.
  - apply (Hfail [sampleMarker] [sampleDoc] orphanMarker []); [|reflexivity].
    repeat constructor.
  - apply Hok. repeat constructor.
Defined.

(** ** The sort specification of a search *)

(** X12.  The shuffle seed reaches the engine only in a shuffle: for every
    query whose sort key is not the shuffle marker, two searches that differ
    only in their seed send the engine the same request. *)
Theorem seed_only_matters_for_shuffle
        (DEFAULT_PAGE_SIZE : Z) (options : IMarkerSearchQuery.t) (s1 s2 : string) :
  IMarkerSearchQuery.sortBy options <> Some "$shuffle" ->
  searchRequest DEFAULT_PAGE_SIZE options s1
  = searchRequest DEFAULT_PAGE_SIZE options s2.
Proof.
  intros Hns. unfold searchRequest. f_equal. unfold sortOf.
  destruct (IMarkerSearchQuery.sortBy options) as [key|]; [|reflexivity].
  destruct (String.eqb key "") eqn:E0; [reflexivity|].
  destruct (String.eqb key "$shuffle") eqn:E1; [|reflexivity].
  apply String.eqb_eq in E1. congruence.
Qed.

Lemma seed_only_matters_for_shuffle_witness :
  searchRequest 24%Z (sortedBy "rating" (Some "asc")) "monday"
  = searchRequest 24%Z (sortedBy "rating" (Some "asc")) "tuesday".
Proof.
  apply seed_only_matters_for_shuffle. discriminate.
Defined.

(** X13.  A sort key gets a type tag exactly when it is one of [addedOn],
    [name], [rating] and [bookmark]; the tag is then "string" for [name]
    and "number" for the other three. *)
Theorem sort_type_tag_iff_recognized (key : string) :
  (isTag (sortTypeOf key) = true <-> In key recognizedSortKeys)
  /\ (In key recognizedSortKeys ->
      sortTypeOf key
      = Gianna.Tag (if String.eqb key "name" then "string" else "number")).
Proof.
  split; [split|].
  - intros Htag. destruct (in_dec string_dec key recognizedSortKeys) as [Hin|Hnot];
      [assumption|].
    apply sortTypeOf_unrecognized in Hnot. congruence.
  - intros [<-|[<-|[<-|[<-|[]]]]]; reflexivity.
  - intros [<-|[<-|[<-|[<-|[]]]]]; reflexivity.
Qed.

Lemma sort_type_tag_iff_recognized_witness :
  sortTypeOf "name" = Gianna.Tag "string"
  /\ ~ In "toString" recognizedSortKeys.
Proof.
  destruct (sort_type_tag_iff_recognized "name") as [_ Htag].
  destruct (sort_type_tag_iff_recognized "toString") as [[Hrec _] _].
  split.
  - apply Htag. simpl. tauto.
  - intros Hin. simpl in Hin. intuition discriminate.
Defined.

(** ** The marker collection *)

(** X14.  Looking a marker up after a removal: [getById] answers [null]
    for the removed id and what it answered before for every other id; and
    whatever [getById] returns is a marker of the collection that carries
    the id asked for. *)
Theorem Marker_getById_after_remove (markers : list Marker.t) (gone id : string) :
  Marker_getById (Marker_remove markers gone) id
  = (if String.eqb id gone then None else Marker_getById markers id)
  /\ (forall m, Marker_getById markers id = Some m ->
                In m markers /\ Marker._id m = id).
Proof.
  split.
  - unfold Marker_getById, Marker_remove, database.findOne, database.remove.
    induction markers as [|m markers IH]; simpl.
    + now destruct (String.eqb id gone).
    + destruct (String.eqb (Marker._id m) gone) eqn:Hg; simpl.
      * rewrite IH. destruct (String.eqb id gone) eqn:Hi; [reflexivity|].
        destruct (String.eqb (Marker._id m) id) eqn:Hm; [|reflexivity].
        apply String.eqb_eq in Hg, Hm. apply String.eqb_neq in Hi. congruence.
      * destruct (String.eqb (Marker._id m) id) eqn:Hm.
        -- apply String.eqb_eq in Hm. subst id. now rewrite Hg.
        -- exact IH.
  - intros m Hm. unfold Marker_getById, database.findOne in Hm.
    apply find_some in Hm. destruct Hm as [Hin Hid].
    split; [assumption | now apply String.eqb_eq].
Qed.

Lemma Marker_getById_after_remove_witness :
  In sampleMarker [orphanMarker; sampleMarker]
  /\ Marker._id sampleMarker = "mk_1".
Proof.
  destruct (Marker_getById_after_remove [orphanMarker; sampleMarker] "mk_2" "mk_1")
    as [_ Hfound].
  apply Hfound. reflexivity.
Defined.

(** X15.  Removing the markers of a scene makes the rest indexable.
    [removeByScene] keeps, in order, exactly the markers whose [scene] is
    not the id of the given scene; when every marker of the collection
    either belongs to that scene or has a scene that exists, a bulk build
    over what is left returns, with the number of markers left. *)
Theorem removeByScene_then_index
        (actorPrefix : string) (ofNull : result (list Actor.t)) (cfg : option Z) (db : Store)
        (markers : list Marker.t) (gone : Scene.t) (engine : Engine) :
  (forall m, In m markers ->
             Marker.scene m = Scene._id gone
             \/ exists sc, Scene.getById (scenes db) (Marker.scene m) = Some sc) ->
  let left := Marker_removeByScene markers gone in
  (forall m, In m left <-> In m markers /\ Marker.scene m <> Scene._id gone)
  /\ fst (indexMarkers actorPrefix ofNull cfg db left engine) = Ok (List.length left).
Proof.
  intros Hall left.
  assert (Hleft : forall m, In m left <->
                            In m markers /\ Marker.scene m <> Scene._id gone).
  { intros m. unfold left, Marker_removeByScene, database.remove.
    rewrite filter_In, negb_true_iff. now rewrite String.eqb_neq. }
  split; [exact Hleft|].
  destruct (built_exists actorPrefix ofNull db left) as [docs Hb].
  - intros m Hm. apply Hleft in Hm. destruct Hm as [Hin Hne].
    destruct (Hall m Hin) as [Heq|Hsc]; [contradiction | exact Hsc].
  - now rewrite (indexMarkers_built actorPrefix ofNull cfg db left docs engine Hb).
Qed.

Lemma removeByScene_then_index_witness :
  fst (indexMarkers "ac_" emptyForNull None sampleStore
         (Marker_removeByScene [sampleMarker; orphanMarker; secondMarker]
                               (Scene.mk "sc_gone" "lost scene" None))
         [])
  = Ok 2.
Proof.
  destruct (removeByScene_then_index
              "ac_" emptyForNull None sampleStore [sampleMarker; orphanMarker; secondMarker]
              (Scene.mk "sc_gone" "lost scene" None) []) as [_ Hrun].
  - intros m [<-|[<-|[<-|[]]]].
    + right. now exists (Scene.mk "sc_1" "first scene" (Some "/videos/a.mp4")).
    + left. reflexivity.
    + right. now exists (Scene.mk "sc_1" "first scene" (Some "/videos/a.mp4")).
  - exact Hrun.
Defined.
